(** * Tubular: change detection and webhook delivery

    A shallow embedding of the polling / diffing / delivery pipeline of the
    Tubular YouTube webhook forwarder:

    - [src/api_client.py]   : [YouTubeAPIClient] (quota tracking, rate window,
                              the three gated API operations);
    - [src/webhook.py]      : [WebhookForwarder] (signed delivery, in-place
                              retries, the pending ring and its sweep);
    - [src/monitor.py]      : [YouTubeLiveMonitor._check_live_streams] and
                              [_monitor_chat];
    - [src/server/server.py], [tubular/contrib/tubular/tubular.py] and
      [tubular/contrib/tubular/tubular/server.py] : [CallbackHandler.do_GET].

    The program is stateful and talks to the network, so it is embedded in a
    small state-and-exception monad over one process state.  Everything outside
    the repository (the wall clock, the HTTP endpoints, [json.dumps], HMAC) is
    an oracle of the environment record [Env]; the state keeps the log of the
    requests made, on which the events of a run are observed.

    The file has three parts: the program, the vocabulary of the statements
    (observations, footprints, concrete runs), and the proofs. *)

From Stdlib Require Import ZArith List String Bool Lia QArith Qabs.
Import ListNotations.
Local Open Scope string_scope.
Local Open Scope list_scope.
Local Open Scope Z_scope.

Set Implicit Arguments.

(* ===================================================================== *)
(** ** Time *)

(** [datetime] values have microsecond resolution: a point in time is the
    number of microseconds since the epoch (UTC), a [timedelta] a number of
    microseconds. *)
Definition Time := Z.

Definition seconds (n : Z) : Z := n * 1000000.
Definition minutes (n : Z) : Z := seconds (60 * n).
Definition hours (n : Z) : Z := minutes (60 * n).

(** [t.date()]: the UTC calendar day, as a day number. *)
Definition date_of (t : Time) : Z := t / hours 24.

(* ===================================================================== *)
(** ** Python containers *)

(** A [dict] with string keys.  Python dicts iterate in insertion order and
    the monitor iterates over [active_streams], so the order is kept: an
    association list without duplicate keys. *)
Definition dict (V : Type) := list (string * V).

Section Dict.
Variable V : Type.

(** [d.get(k)] *)
Fixpoint dict_get (k : string) (d : dict V) : option V :=
  match d with
  | [] => None
  | (k', v) :: d' => if String.eqb k k' then Some v else dict_get k d'
  end.

(** [k in d] *)
Definition dict_mem (k : string) (d : dict V) : bool :=
  match dict_get k d with Some _ => true | None => false end.

(** [d[k] = v]: an existing key keeps its position, a new key goes last. *)
Fixpoint dict_set (k : string) (v : V) (d : dict V) : dict V :=
  match d with
  | [] => [(k, v)]
  | (k', v') :: d' =>
      if String.eqb k k' then (k, v) :: d' else (k', v') :: dict_set k v d'
  end.

(** [del d[k]] (the callers only delete keys that are present). *)
Fixpoint dict_del (k : string) (d : dict V) : dict V :=
  match d with
  | [] => []
  | (k', v') :: d' =>
      if String.eqb k k' then dict_del k d' else (k', v') :: dict_del k d'
  end.

(** [list(d.keys())] *)
Definition dict_keys (d : dict V) : list string := map fst d.
End Dict.

(** Membership in a Python [set] of strings, kept as the list of additions. *)
Definition set_mem (k : string) (s : list string) : bool :=
  existsb (String.eqb k) s.

(** [collections.deque(maxlen=n).append(x)]: a full deque drops from the left. *)
Definition deque_append (A : Type) (maxlen : nat) (q : list A) (x : A) : list A :=
  let q' := q ++ [x] in skipn (List.length q' - maxlen)%nat q'.

(* ===================================================================== *)
(** ** Upstream data *)

(** [details["snippet"]] *)
Record Snippet := {
  title : string;
  description : string;
  channelId : string;
  channelTitle : string
}.

(** [details["liveStreamingDetails"]]; every key is read with [.get] or after
    an [in] test. *)
Record LiveStreamingDetails := {
  actualStartTime : option string;
  scheduledStartTime : option string;
  concurrentViewers : option Z;
  activeLiveChatId : option string
}.

(** One item of a [videos] response.  The code tests
    ["liveStreamingDetails" in details], so that key is optional. *)
Record VideoDetails := {
  snippet : Snippet;
  liveStreamingDetails : option LiveStreamingDetails
}.

(** One item of a [search] response: [broadcast["id"]["videoId"]]. *)
Record Broadcast := { videoId : string }.

(** [item["authorDetails"]] *)
Record AuthorDetails := {
  displayName : string;
  author_channelId : string;
  isChatModerator : option bool;
  isChatSponsor : option bool
}.

(** [item["snippet"]] of a chat message, by its ["type"] tag. *)
Inductive ChatSnippet :=
| textMessageEvent (messageText : string)
| superChatEvent (userComment : option string) (amountMicros : Z)
                 (currency amountDisplayString : string)
| newSponsorEvent
| otherEvent (type : string).

Record ChatItem := {
  chat_snippet : ChatSnippet;
  publishedAt : string;
  authorDetails : AuthorDetails
}.

(** A [liveChat/messages] response body. *)
Record ChatData := {
  nextPageToken : option string;
  chat_items : list ChatItem
}.

(** The body of an HTTP response, as [_handle_api_response] sees it. *)
Inductive ResponseJson (A : Type) :=
| InvalidJSON                            (* [response.json()] raises *)
| ErrorObject (code : option Z) (reasons : list string)  (* has ["error"] *)
| Body (a : A).                          (* a JSON object without ["error"] *)
Arguments InvalidJSON {A}.
Arguments ErrorObject {A} code reasons.

(** What a [session.get] can come back with. *)
Inductive GetOutcome (A : Type) :=
| RequestException                       (* transport failure: the call raises *)
| Response (r : ResponseJson A).
Arguments RequestException {A}.

(* ===================================================================== *)
(** ** Webhook events *)

(** JSON values occurring in event payloads. *)
Inductive JValue :=
| JNull
| JBool (b : bool)
| JInt (n : Z)
| JStr (s : string)
| JTime (t : Time).                      (* [t.isoformat()] *)

(** [event_data]: a dict literal, in source order. *)
Definition EventData := list (string * JValue).

Definition opt_str (o : option string) : JValue :=
  match o with Some s => JStr s | None => JNull end.

(** The envelope built by [forward_event]. *)
Record Payload := {
  event_type : string;
  event : EventData;
  timestamp : Time;
  source : string
}.

(** The arguments of one [session.post]. *)
Record PostRequest := {
  url : string;
  json : Payload;
  headers : list (string * string)
}.

(** An entry of [failed_events]. *)
Definition PendingEvent := (string * EventData * Time)%type.

(* ===================================================================== *)
(** ** Environment and configuration *)

Record YouTubeConfig := {
  api_key : string;
  channel_id : string;
  webhook_url : string;
  webhook_secret : string
}.

(** The outside world.  The n-th reading of the clock, the n-th GET and the
    n-th POST of the process are answered by oracles; [json_dumps] and
    [hmac_sha256_hexdigest] stand for [json.dumps] and
    [hmac.new(key, msg, hashlib.sha256).hexdigest()]. *)
Record Env := {
  clock : nat -> Time;
  search_get : nat -> GetOutcome (list Broadcast);
  videos_get : nat -> string -> GetOutcome (list VideoDetails);
  chat_get : nat -> string -> option string -> GetOutcome ChatData;
  post_ok : nat -> PostRequest -> bool;
  json_dumps : Payload -> string;
  hmac_sha256_hexdigest : string -> string -> string
}.

(** A GET as issued: endpoint and the parameters that vary. *)
Inductive GetRequest :=
| GetSearch (channelId : string)
| GetVideos (id : string)
| GetChat (liveChatId : string) (pageToken : option string).

(** One POST on the wire.  [attempt] is the [retry_count] of the
    [forward_event] activation that issued it: the POSTs with [attempt = 0]
    are exactly the events handed to the forwarder. *)
Record Delivery := {
  attempt : nat;
  request : PostRequest;
  delivered : bool
}.

(** Bookkeeping of the interaction with the world. *)
Record World := {
  ticks : nat;                    (* clock readings so far *)
  fetched : list GetRequest;      (* GETs so far, oldest first *)
  posted : list Delivery;         (* POSTs so far, oldest first *)
  slept : list Z                  (* [time.sleep] durations, microseconds *)
}.

(** [YouTubeAPIClient] *)
Record APIClient := {
  api_calls : list Time;          (* deque(maxlen=100) *)
  quota_exceeded : bool;
  quota_used_today : Z;
  quota_reset_date : Z
}.

Definition set_api_calls (f : list Time -> list Time) (c : APIClient) :=
  {| api_calls := f (api_calls c); quota_exceeded := quota_exceeded c;
     quota_used_today := quota_used_today c;
     quota_reset_date := quota_reset_date c |}.

Definition set_quota_exceeded (b : bool) (c : APIClient) :=
  {| api_calls := api_calls c; quota_exceeded := b;
     quota_used_today := quota_used_today c;
     quota_reset_date := quota_reset_date c |}.

Definition set_quota_used_today (f : Z -> Z) (c : APIClient) :=
  {| api_calls := api_calls c; quota_exceeded := quota_exceeded c;
     quota_used_today := f (quota_used_today c);
     quota_reset_date := quota_reset_date c |}.

Definition set_quota_reset_date (d : Z) (c : APIClient) :=
  {| api_calls := api_calls c; quota_exceeded := quota_exceeded c;
     quota_used_today := quota_used_today c;
     quota_reset_date := d |}.

(** The whole process: world bookkeeping, API client, forwarder, monitor. *)
Record State := {
  world : World;
  api_client : APIClient;
  failed_events : list PendingEvent;           (* deque(maxlen=100) *)
  active_streams : dict VideoDetails;
  chat_page_tokens : dict string;
  stats_events_forwarded : Z;
  stats_api_calls : Z;
  last_broadcast_check : Time
}.

Definition set_world (f : World -> World) (s : State) : State :=
  {| world := f (world s); api_client := api_client s;
     failed_events := failed_events s; active_streams := active_streams s;
     chat_page_tokens := chat_page_tokens s;
     stats_events_forwarded := stats_events_forwarded s;
     stats_api_calls := stats_api_calls s;
     last_broadcast_check := last_broadcast_check s |}.

Definition set_api_client (f : APIClient -> APIClient) (s : State) : State :=
  {| world := world s; api_client := f (api_client s);
     failed_events := failed_events s; active_streams := active_streams s;
     chat_page_tokens := chat_page_tokens s;
     stats_events_forwarded := stats_events_forwarded s;
     stats_api_calls := stats_api_calls s;
     last_broadcast_check := last_broadcast_check s |}.

Definition set_failed_events (f : list PendingEvent -> list PendingEvent)
    (s : State) : State :=
  {| world := world s; api_client := api_client s;
     failed_events := f (failed_events s); active_streams := active_streams s;
     chat_page_tokens := chat_page_tokens s;
     stats_events_forwarded := stats_events_forwarded s;
     stats_api_calls := stats_api_calls s;
     last_broadcast_check := last_broadcast_check s |}.

Definition set_active_streams (f : dict VideoDetails -> dict VideoDetails)
    (s : State) : State :=
  {| world := world s; api_client := api_client s;
     failed_events := failed_events s; active_streams := f (active_streams s);
     chat_page_tokens := chat_page_tokens s;
     stats_events_forwarded := stats_events_forwarded s;
     stats_api_calls := stats_api_calls s;
     last_broadcast_check := last_broadcast_check s |}.

Definition set_chat_page_tokens (f : dict string -> dict string)
    (s : State) : State :=
  {| world := world s; api_client := api_client s;
     failed_events := failed_events s; active_streams := active_streams s;
     chat_page_tokens := f (chat_page_tokens s);
     stats_events_forwarded := stats_events_forwarded s;
     stats_api_calls := stats_api_calls s;
     last_broadcast_check := last_broadcast_check s |}.

Definition set_stats_events_forwarded (f : Z -> Z) (s : State) : State :=
  {| world := world s; api_client := api_client s;
     failed_events := failed_events s; active_streams := active_streams s;
     chat_page_tokens := chat_page_tokens s;
     stats_events_forwarded := f (stats_events_forwarded s);
     stats_api_calls := stats_api_calls s;
     last_broadcast_check := last_broadcast_check s |}.

Definition set_stats_api_calls (f : Z -> Z) (s : State) : State :=
  {| world := world s; api_client := api_client s;
     failed_events := failed_events s; active_streams := active_streams s;
     chat_page_tokens := chat_page_tokens s;
     stats_events_forwarded := stats_events_forwarded s;
     stats_api_calls := f (stats_api_calls s);
     last_broadcast_check := last_broadcast_check s |}.

Definition set_last_broadcast_check (t : Time) (s : State) : State :=
  {| world := world s; api_client := api_client s;
     failed_events := failed_events s; active_streams := active_streams s;
     chat_page_tokens := chat_page_tokens s;
     stats_events_forwarded := stats_events_forwarded s;
     stats_api_calls := stats_api_calls s;
     last_broadcast_check := t |}.

(* ===================================================================== *)
(** ** The monad: state, and exceptions that keep the state *)

(** The only exception the modelled paths can raise by themselves: a
    subscript on a missing key. *)
Inductive Exn := KeyError (key : string).

Inductive Result (A : Type) :=
| Returned (a : A)
| Raised (e : Exn).
Arguments Raised {A} e.

Definition M (A : Type) := State -> Result A * State.

Definition ret {A} (a : A) : M A := fun s => (Returned a, s).

Definition bind {A B} (m : M A) (k : A -> M B) : M B :=
  fun s =>
    match m s with
    | (Returned a, s') => k a s'
    | (Raised e, s') => (Raised e, s')
    end.

Definition raise {A} (e : Exn) : M A := fun s => (Raised e, s).
Definition get_state : M State := fun s => (Returned s, s).
Definition modify (f : State -> State) : M unit := fun s => (Returned tt, f s).

Declare Scope monad_scope.
Delimit Scope monad_scope with monad.
Notation "x <- m ;; k" := (bind m (fun x => k))
  (at level 61, m at next level, right associativity) : monad_scope.
Notation "m ;; k" := (bind m (fun _ => k))
  (at level 61, right associativity) : monad_scope.
Local Open Scope monad_scope.

(** [for x in xs: body] *)
Fixpoint for_each {A} (xs : list A) (body : A -> M unit) : M unit :=
  match xs with
  | [] => ret tt
  | x :: xs' => body x ;; for_each xs' body
  end.

(** [if c: body] *)
Definition when (c : bool) (body : M unit) : M unit :=
  if c then body else ret tt.

(* ===================================================================== *)
(** ** The program *)

Section Program.
Variable env : Env.
Variable config : YouTubeConfig.

(** *** Primitive interactions *)

(** [datetime.now(timezone.utc)] *)
Definition now : M Time :=
  fun s =>
    (Returned (clock env (ticks (world s))),
     set_world (fun w => {| ticks := S (ticks w); fetched := fetched w;
                            posted := posted w; slept := slept w |}) s).

(** [time.sleep(d)] *)
Definition sleep (d : Z) : M unit :=
  modify (set_world (fun w => {| ticks := ticks w; fetched := fetched w;
                                 posted := posted w;
                                 slept := slept w ++ [d] |})).

(** [self.session.get(url, params=..., timeout=10)] *)
Definition session_get {A} (req : GetRequest)
    (oracle : nat -> GetOutcome A) : M (GetOutcome A) :=
  fun s =>
    (Returned (oracle (List.length (fetched (world s)))),
     set_world (fun w => {| ticks := ticks w; fetched := fetched w ++ [req];
                            posted := posted w; slept := slept w |}) s).

(** [self.session.post(...)] followed by [response.raise_for_status()]:
    [true] when neither raises a [requests.RequestException]. *)
Definition session_post (retry_count : nat) (req : PostRequest) : M bool :=
  fun s =>
    let ok := post_ok env (List.length (posted (world s))) req in
    (Returned ok,
     set_world (fun w => {| ticks := ticks w; fetched := fetched w;
                            posted := posted w ++
                              [{| attempt := retry_count; request := req;
                                  delivered := ok |}];
                            slept := slept w |}) s).

(** *** [YouTubeAPIClient] (src/api_client.py) *)

Definition daily_quota_limit : Z := 10000.

Definition quota_costs : dict Z :=
  [("search", 100); ("videos", 1); ("liveChatMessages", 5)].

(** The [while] loop of [_check_rate_limit]: pop calls older than a minute
    from the left. *)
Fixpoint evict_old (t : Time) (calls : list Time) : list Time :=
  match calls with
  | c :: rest => if t - c >? minutes 1 then evict_old t rest else calls
  | [] => []
  end.

Definition _check_rate_limit : M unit :=
  t <- now ;;
  modify (set_api_client (set_api_calls (evict_old t))) ;;
  s <- get_state ;;
  let calls := api_calls (api_client s) in
  when (50 <=? Z.of_nat (List.length calls))
    match calls with
    | c0 :: _ =>
        let wait_time := seconds 60 - (t - c0) in
        when (wait_time >? 0) (sleep wait_time)
    | [] => ret tt
    end.

(** Persisting the quota to Redis and the threshold log lines have no
    effect on the modelled state. *)
Definition _record_api_call (operation : string) : M unit :=
  t <- now ;;
  modify (set_api_client (set_api_calls (fun q => deque_append 100 q t))) ;;
  t' <- now ;;
  let today := date_of t' in
  s <- get_state ;;
  when (negb (today =? quota_reset_date (api_client s)))
    (modify (set_api_client
               (fun c => set_quota_reset_date today
                           (set_quota_used_today (fun _ => 0) c)))) ;;
  let cost := match dict_get operation quota_costs with
              | Some c => c
              | None => 1
              end in
  modify (set_api_client (set_quota_used_today (fun u => u + cost))).

Definition is_quota_reason (reason : string) : bool :=
  String.eqb reason "quotaExceeded" || String.eqb reason "dailyLimitExceeded".

Definition _handle_api_response {A} (response : ResponseJson A)
    : M (option A) :=
  match response with
  | InvalidJSON => ret None
  | ErrorObject code reasons =>
      if match code with Some c => c =? 403 | None => false end
      then
        if existsb is_quota_reason reasons
        then modify (set_api_client (set_quota_exceeded true)) ;; ret None
        else ret None
      else ret None
  | Body data => ret (Some data)
  end.

Definition get_live_broadcasts : M (list Broadcast) :=
  s <- get_state ;;
  if quota_exceeded (api_client s) then ret []
  else
    _check_rate_limit ;;
    response <- session_get (GetSearch (channel_id config)) (search_get env) ;;
    match response with
    | RequestException => ret []
    | Response r =>
        _record_api_call "search" ;;
        data <- _handle_api_response r ;;
        ret (match data with Some items => items | None => [] end)
    end.

Definition get_video_details (video_id : string) : M (option VideoDetails) :=
  s <- get_state ;;
  if quota_exceeded (api_client s) then ret None
  else
    _check_rate_limit ;;
    response <- session_get (GetVideos video_id)
                  (fun n => videos_get env n video_id) ;;
    match response with
    | RequestException => ret None
    | Response r =>
        _record_api_call "videos" ;;
        data <- _handle_api_response r ;;
        ret (match data with Some items => hd_error items | None => None end)
    end.

(** [if page_token: params["pageToken"] = page_token] *)
Definition page_token_param (page_token : option string) : option string :=
  match page_token with
  | Some "" => None
  | _ => page_token
  end.

(** The result [{}] is [None]. *)
Definition get_live_chat_messages (live_chat_id : string)
    (page_token : option string) : M (option ChatData) :=
  s <- get_state ;;
  if quota_exceeded (api_client s) then ret None
  else
    _check_rate_limit ;;
    let token := page_token_param page_token in
    response <- session_get (GetChat live_chat_id token)
                  (fun n => chat_get env n live_chat_id token) ;;
    match response with
    | RequestException => ret None
    | Response r =>
        _record_api_call "liveChatMessages" ;;
        data <- _handle_api_response r ;;
        ret data                       (* [data if data else {}] *)
    end.

(** *** [WebhookForwarder] (src/webhook.py) *)

Definition _generate_signature (payload : string) : string :=
  hmac_sha256_hexdigest env (webhook_secret config) payload.

Definition base_headers : list (string * string) :=
  [("Content-Type", "application/json");
   ("User-Agent", "Tubular-YouTube-Webhook-Forwarder/1.0")].

(** The request of one attempt: the envelope, and the signature header when
    a secret is configured. *)
Definition build_request (event_type : string) (event_data : EventData)
    (t : Time) : PostRequest :=
  let payload := {| event_type := event_type; event := event_data;
                    timestamp := t; source := "youtube" |} in
  let headers :=
    if String.eqb (webhook_secret config) "" then base_headers
    else base_headers ++
         [("X-Hub-Signature",
           ("sha256=" ++ _generate_signature (json_dumps env payload))%string)]
  in
  {| url := webhook_url config; json := payload; headers := headers |}.

(** [forward_event(event_type, event_data, retry_count)] recurses while
    [retry_count < 3]; the recursion is on [retries_left = 3 - retry_count]. *)
Fixpoint forward_event_from (retries_left : nat) (event_type : string)
    (event_data : EventData) : M bool :=
  let retry_count := (3 - retries_left)%nat in
  t <- now ;;
  ok <- session_post retry_count (build_request event_type event_data t) ;;
  if ok then ret true
  else
    match retries_left with
    | S k =>
        let wait_time := 2 ^ Z.of_nat retry_count in
        sleep (seconds wait_time) ;;
        forward_event_from k event_type event_data
    | O =>
        t' <- now ;;
        modify (set_failed_events
                  (fun q => deque_append 100 q (event_type, event_data, t'))) ;;
        ret false
    end.

(** [forward_event(event_type, event_data)], with [retry_count = 0]. *)
Definition forward_event (event_type : string) (event_data : EventData)
    : M bool :=
  forward_event_from 3 event_type event_data.



(** *** [YouTubeLiveMonitor] (src/monitor.py) *)

(** [d[k]] *)
Definition subscript {V} (k : string) (d : dict V) : M V :=
  match dict_get k d with
  | Some v => ret v
  | None => raise (KeyError k)
  end.

(** [details["liveStreamingDetails"]] *)
Definition live_details (details : VideoDetails) : M LiveStreamingDetails :=
  match liveStreamingDetails details with
  | Some lsd => ret lsd
  | None => raise (KeyError "liveStreamingDetails")
  end.

(** [details.get("liveStreamingDetails", {}).get("concurrentViewers", 0)] *)
Definition viewers_or_zero (details : VideoDetails) : Z :=
  match liveStreamingDetails details with
  | Some lsd => match concurrentViewers lsd with Some n => n | None => 0 end
  | None => 0
  end.

(** [if self.forwarder.forward_event(t, d): self.stats["events_forwarded"] += 1] *)
Definition forward_and_count (event_type : string) (event_data : EventData)
    : M unit :=
  ok <- forward_event event_type event_data ;;
  when ok (modify (set_stats_events_forwarded (fun n => n + 1))).

Definition opt_bool_or_false (o : option bool) : JValue :=
  JBool (match o with Some b => b | None => false end).

Definition chat_event (video_id : string) (item : ChatItem)
    : option (string * EventData) :=
  let author := authorDetails item in
  match chat_snippet item with
  | textMessageEvent messageText =>
      Some ("youtube.chat.message",
            [("video_id", JStr video_id);
             ("message", JStr messageText);
             ("author_name", JStr (displayName author));
             ("author_channel_id", JStr (author_channelId author));
             ("is_moderator", opt_bool_or_false (isChatModerator author));
             ("is_sponsor", opt_bool_or_false (isChatSponsor author));
             ("timestamp", JStr (publishedAt item))])
  | superChatEvent userComment amountMicros currency amountDisplayString =>
      Some ("youtube.chat.superchat",
            [("video_id", JStr video_id);
             ("message", JStr (match userComment with
                               | Some c => c | None => "" end));
             ("author_name", JStr (displayName author));
             ("author_channel_id", JStr (author_channelId author));
             ("amount", JInt amountMicros);
             ("currency", JStr currency);
             ("amount_display", JStr amountDisplayString);
             ("timestamp", JStr (publishedAt item))])
  | newSponsorEvent =>
      Some ("youtube.chat.new_sponsor",
            [("video_id", JStr video_id);
             ("author_name", JStr (displayName author));
             ("author_channel_id", JStr (author_channelId author));
             ("timestamp", JStr (publishedAt item))])
  | otherEvent _ => None
  end.

Definition _monitor_chat (video_id live_chat_id : string) : M unit :=
  s <- get_state ;;
  let page_token := dict_get video_id (chat_page_tokens s) in
  chat_data <- get_live_chat_messages live_chat_id page_token ;;
  modify (set_stats_api_calls (fun n => n + 1)) ;;
  match chat_data with
  | None => ret tt
  | Some data =>
      modify (set_chat_page_tokens
                (dict_set video_id
                   (match nextPageToken data with
                    | Some tok => tok | None => "" end))) ;;
      for_each (chat_items data)
        (fun item =>
           match chat_event video_id item with
           | Some (event_type, event_data) =>
               forward_and_count event_type event_data
           | None => ret tt
           end)
  end.

(** [if "activeLiveChatId" in details["liveStreamingDetails"]: ...] *)
Definition monitor_chat_if_available (video_id : string)
    (details : VideoDetails) : M unit :=
  lsd <- live_details details ;;
  match activeLiveChatId lsd with
  | Some chat_id => _monitor_chat video_id chat_id
  | None => ret tt
  end.

(** [abs(new - old) / old > 0.1].  The quotient is taken in the rationals.
    Python's float quotient of two integers is the correctly rounded
    quotient and the double [0.1] is within 6e-18 of 1/10, so for viewer
    counts below 10^15 the float comparison gives the same answer. *)
Definition exceeds_ten_percent (viewer_diff old_viewers : Z) : bool :=
  negb (Qle_bool (inject_Z viewer_diff / inject_Z old_viewers) (1 # 10)).

(** Lightweight refresh: [if old_viewers > 0: ... if change_percent > 0.1]. *)
Definition refresh_fires (old_viewers new_viewers : Z) : bool :=
  (old_viewers >? 0) &&
  exceeds_ten_percent (Z.abs (new_viewers - old_viewers)) old_viewers.

(** Full check: [if old_viewers and new_viewers: ...
    if viewer_diff > 100 or pct_change > 0.1]. *)
Definition full_check_fires (old_viewers new_viewers : Z) : bool :=
  negb (old_viewers =? 0) && negb (new_viewers =? 0) &&
  (let viewer_diff := Z.abs (new_viewers - old_viewers) in
   (viewer_diff >? 100) ||
   (if old_viewers >? 0 then exceeds_ten_percent viewer_diff old_viewers
    else false)).

(** The body of the loop of the lightweight refresh. *)
Definition refresh_stream (video_id : string) : M unit :=
  details <- get_video_details video_id ;;
  modify (set_stats_api_calls (fun n => n + 1)) ;;
  match details with
  | Some details =>
      match liveStreamingDetails details with
      | Some new_lsd =>
          s <- get_state ;;
          old_details <- subscript video_id (active_streams s) ;;
          old_lsd <- live_details old_details ;;
          let old_viewers := match concurrentViewers old_lsd with
                             | Some n => n | None => 0 end in
          let new_viewers := match concurrentViewers new_lsd with
                             | Some n => n | None => 0 end in
          modify (set_active_streams (dict_set video_id details)) ;;
          when (refresh_fires old_viewers new_viewers)
            (forward_and_count "youtube.live.viewers_updated"
               [("video_id", JStr video_id);
                ("concurrent_viewers", JInt new_viewers);
                ("title", JStr (title (snippet details)));
                ("channel_id", JStr (channelId (snippet details)))])
      | None => ret tt      (* logged: "appears to have ended" *)
      end
  | None => ret tt          (* logged: "appears to have ended" *)
  end.

(** [for x in xs: body], with a local variable carried through. *)
Fixpoint for_each_with {A B} (xs : list A) (local : B)
    (body : A -> B -> M B) : M B :=
  match xs with
  | [] => ret local
  | x :: xs' => local' <- body x local ;; for_each_with xs' local' body
  end.

(** The body of the loop over the broadcast list; [current_stream_ids] is
    the local set, returned with the identifier added. *)
Definition check_broadcast (broadcast : Broadcast)
    (current_stream_ids : list string) : M (list string) :=
  let video_id := videoId broadcast in
  let current_stream_ids := current_stream_ids ++ [video_id] in
  details <- get_video_details video_id ;;
  modify (set_stats_api_calls (fun n => n + 1)) ;;
  match details with
  | None => ret current_stream_ids                           (* continue *)
  | Some details =>
      s <- get_state ;;
      match dict_get video_id (active_streams s) with
      | None =>
          modify (set_active_streams (dict_set video_id details)) ;;
          lsd <- live_details details ;;
          forward_and_count "youtube.live.started"
            [("video_id", JStr video_id);
             ("title", JStr (title (snippet details)));
             ("description", JStr (description (snippet details)));
             ("channel_id", JStr (channelId (snippet details)));
             ("channel_title", JStr (channelTitle (snippet details)));
             ("started_at", opt_str (actualStartTime lsd));
             ("scheduled_start", opt_str (scheduledStartTime lsd));
             ("concurrent_viewers",
              JInt (match concurrentViewers lsd with
                    | Some n => n | None => 0 end))] ;;
          monitor_chat_if_available video_id details ;;
          ret current_stream_ids
      | Some old_details =>
          let old_viewers := viewers_or_zero old_details in
          let new_viewers := viewers_or_zero details in
          when (full_check_fires old_viewers new_viewers)
            (forward_and_count "youtube.live.viewers_updated"
               [("video_id", JStr video_id);
                ("concurrent_viewers", JInt new_viewers);
                ("previous_viewers", JInt old_viewers)]) ;;
          modify (set_active_streams (dict_set video_id details)) ;;
          monitor_chat_if_available video_id details ;;
          ret current_stream_ids
      end
  end.

(** The body of the loop over [ended_streams]. *)
Definition end_stream (video_id : string) : M unit :=
  s <- get_state ;;
  details <- subscript video_id (active_streams s) ;;
  ended_at <- now ;;
  forward_and_count "youtube.live.ended"
    [("video_id", JStr video_id);
     ("title", JStr (title (snippet details)));
     ("channel_id", JStr (channelId (snippet details)));
     ("ended_at", JTime ended_at)] ;;
  modify (set_active_streams (dict_del video_id)) ;;
  s' <- get_state ;;
  when (dict_mem video_id (chat_page_tokens s'))
    (modify (set_chat_page_tokens (dict_del video_id))).

(** [set(self.active_streams.keys()) - current_stream_ids].  Python leaves
    the iteration order of a set open; the order of the dict is taken. *)
Definition ended_streams (active : dict VideoDetails)
    (current_stream_ids : list string) : list string :=
  filter (fun k => negb (set_mem k current_stream_ids)) (dict_keys active).

(** What the full check does with the broadcast list once it has it: the
    loop over the list, then the loop over the ended streams. *)
Definition reconcile (broadcasts : list Broadcast) : M unit :=
  modify (set_stats_api_calls (fun n => n + 1)) ;;
  current_stream_ids <- for_each_with broadcasts [] check_broadcast ;;
  s <- get_state ;;
  for_each (ended_streams (active_streams s) current_stream_ids) end_stream.

(** The full broadcast check: [_check_live_streams] from
    ["Perform full broadcast check"] on. *)
Definition full_check (t : Time) : M unit :=
  modify (set_last_broadcast_check t) ;;
  broadcasts <- get_live_broadcasts ;;
  reconcile broadcasts.

(** The lightweight refresh: the branch taken while streams are active and
    the last full check is less than five minutes old. *)
Definition lightweight_refresh : M unit :=
  s <- get_state ;;
  for_each (dict_keys (active_streams s)) refresh_stream.

Definition skips_full_check (s : State) (t : Time) : bool :=
  match active_streams s with [] => false | _ => true end &&
  (t - last_broadcast_check s <? seconds 300).

Definition _check_live_streams : M unit :=
  t <- now ;;
  s <- get_state ;;
  if skips_full_check s t then lightweight_refresh else full_check t.

End Program.

(* ===================================================================== *)
(** ** The callback endpoint *)

(** A GET as the handler sees it: [self.path], and
    [parse_qs(urlparse(self.path).query)], which maps every parameter name
    to the non-empty list of its values (first value, further values). *)
Record GetCallback := {
  path : string;
  params : dict (string * list string)
}.

Inductive ResponseContent :=
| NoContent                                   (* nothing written *)
| Text (s : string)                           (* [s.encode("utf-8")] *)
| AvailableEvents (events : list string).     (* [json.dumps({"available_events": events})] *)

Record HttpResponse := {
  status : Z;
  content_type : option string;
  content : ResponseContent
}.

(** src/core/constants.py *)
Definition SUPPORTED_EVENT_TYPES : list string :=
  ["youtube.live.started"; "youtube.live.update";
   "youtube.live.viewers_updated"; "youtube.live.ended";
   "youtube.chat.message"; "youtube.chat.superchat";
   "youtube.chat.new_sponsor"; "youtube.chat.supersticker";
   "youtube.chat.user_banned"; "youtube.chat.message_deleted";
   "youtube.chat.poll"].

(** src/server/server.py *)
Module Server.

(** [do_GET]; [has_trigger] tells whether [example_events_trigger] is set. *)
Definition do_GET (has_trigger : bool) (req : GetCallback) : HttpResponse :=
  if String.eqb (path req) "/data/events" then
    {| status := 200; content_type := Some "application/json";
       content := AvailableEvents
                    (if has_trigger then SUPPORTED_EVENT_TYPES else []) |}
  else
    match dict_get "hub_challenge" (params req) with
    | Some (challenge, _) =>
        {| status := 200; content_type := Some "text/plain";
           content := Text challenge |}
    | None =>
        {| status := 404; content_type := Some "text/plain";
           content := Text ("Not Found: " ++ path req)%string |}
    end.

End Server.

(** tubular/contrib/tubular/tubular.py *)
Module Contrib.

Definition do_GET (req : GetCallback) : HttpResponse :=
  match dict_get "hub.challenge" (params req) with
  | Some (challenge, _) =>
      {| status := 200; content_type := Some "text/plain";
         content := Text challenge |}
  | None =>
      {| status := 200; content_type := None; content := NoContent |}
  end.

End Contrib.

(** tubular/contrib/tubular/tubular/server.py *)
Module ContribServer.

(** [ExampleEventsTrigger.list_events] *)
Definition list_events : list string :=
  ["youtube.live.start"; "youtube.live.end"; "youtube.chat.message";
   "youtube.superchat.received"; "youtube.member.joined"].

Definition do_GET (has_trigger : bool) (req : GetCallback) : HttpResponse :=
  if String.eqb (path req) "/data/events" then
    {| status := 200; content_type := Some "application/json";
       content := AvailableEvents
                    (if has_trigger then list_events else []) |}
  else
    match dict_get "hub.challenge" (params req) with
    | Some (challenge, _) =>
        {| status := 200; content_type := Some "text/plain";
           content := Text challenge |}
    | None =>
        {| status := 404; content_type := Some "text/plain";
           content := Text ("Not Found: " ++ path req)%string |}
    end.

End ContribServer.


(* ===================================================================== *)
(** ** Observations on a run *)

(** The POSTs made between two states of a run. *)
Definition posts_since (s s' : State) : list Delivery :=
  skipn (List.length (posted (world s))) (posted (world s')).

(** The events handed to the forwarder: the first attempts. *)
Definition events_of (ds : list Delivery) : list (string * EventData) :=
  map (fun dl => (event_type (json (request dl)), event (json (request dl))))
      (filter (fun dl => Nat.eqb (attempt dl) 0) ds).

Definition emitted (s s' : State) : list (string * EventData) :=
  events_of (posts_since s s').

Definition post_type (dl : Delivery) : string := event_type (json (request dl)).

Definition post_event (dl : Delivery) : EventData := event (json (request dl)).

Definition event_video_id (d : EventData) : option string :=
  match dict_get "video_id" d with
  | Some (JStr v) => Some v
  | _ => None
  end.

(** An ["ended"] event for [video_id]. *)
Definition is_ended_for (video_id : string) (ev : string * EventData) : bool :=
  String.eqb (fst ev) "youtube.live.ended" &&
  match event_video_id (snd ev) with
  | Some v => String.eqb v video_id
  | None => false
  end.

Definition ended_count (video_id : string) (evs : list (string * EventData))
    : nat :=
  List.length (filter (is_ended_for video_id) evs).

(** The stored viewer count of a stream:
    [active_streams[v].get("liveStreamingDetails", {}).get("concurrentViewers", 0)]. *)
Definition stream_viewers (s : State) (video_id : string) : Z :=
  match dict_get video_id (active_streams s) with
  | Some d => viewers_or_zero d
  | None => 0
  end.

(** [|new - old| / old > 0.10] *)
Definition changes_by_more_than_a_tenth (old_viewers new_viewers : Z) : Prop :=
  (1 # 10 < inject_Z (Z.abs (new_viewers - old_viewers)) / inject_Z old_viewers)%Q.

(** [self.quota_costs.get(operation, 1)] *)
Definition operation_cost (operation : string) : Z :=
  match dict_get operation quota_costs with
  | Some c => c
  | None => 1
  end.

(** The bytes of the POST body: [requests] serialises its [json=] argument
    with [json.dumps] and encodes the result as UTF-8. *)
Definition post_body (env : Env) (req : PostRequest) : string :=
  json_dumps env (json req).

(* ===================================================================== *)
(** ** The attempts of a delivery *)

(** The POSTs of [forward_event] entered with [3 - retries_left] retries
    behind it, when the clock has been read [tick] times and [n] POSTs have
    been made: one attempt, and the remaining ones while it fails. *)
Fixpoint deliveries (env : Env) (config : YouTubeConfig) (event_type : string)
    (event_data : EventData) (retries_left tick n : nat) : list Delivery :=
  let req := build_request env config event_type event_data (clock env tick) in
  let ok := post_ok env n req in
  {| attempt := 3 - retries_left; request := req; delivered := ok |} ::
  (if ok then []
   else match retries_left with
        | S k => deliveries env config event_type event_data k (S tick) (S n)
        | O => []
        end).

(** The POSTs a call [forward_event(event_type, event_data)] makes from [s]. *)
Definition attempts (env : Env) (config : YouTubeConfig) (event_type : string)
    (event_data : EventData) (s : State) : list Delivery :=
  deliveries env config event_type event_data 3
    (ticks (world s)) (List.length (posted (world s))).

(** Whether the [j]-th attempt of a call [forward_event(event_type,
    event_data)] made from [s] succeeds: it is the POST number
    [len(posted) + j] of the process, with the envelope stamped by the clock
    reading number [ticks + j]. *)
Definition attempt_ok (env : Env) (config : YouTubeConfig) (event_type : string)
    (event_data : EventData) (s : State) (j : nat) : bool :=
  post_ok env (List.length (posted (world s)) + j)
    (build_request env config event_type event_data
       (clock env (ticks (world s) + j))).


(* ===================================================================== *)
(** ** Assumptions on the upstream API, and sequences of checks *)

(** Every [videos] GET for [video_id] comes back without an item, so that
    [get_video_details(video_id)] is [None]. *)
Definition details_unavailable (env : Env) (video_id : string) : Prop :=
  forall n, match videos_get env n video_id with
            | Response (Body (_ :: _)) => False
            | _ => True
            end.



(* ===================================================================== *)
(** ** Footprints: which elementary state changes a piece of code makes *)

(** The elementary changes the program makes to the state. *)
Inductive Mutation :=
| Tick                                         (* a clock reading *)
| Sleep (d : Z)
| Fetch (req : GetRequest)
| Post (dl : Delivery)
| Api (f : APIClient -> APIClient)
| Failed (f : list PendingEvent -> list PendingEvent)
| ActiveSet (k : string) (d : VideoDetails)    (* [active_streams[k] = d] *)
| ActiveDel (k : string)                       (* [del active_streams[k]] *)
| TokenSet (k : string) (tok : string)
| TokenDel (k : string)
| StatsEvents (f : Z -> Z)
| StatsApi (f : Z -> Z)
| LastCheck (t : Time).

Definition mutate (mu : Mutation) (s : State) : State :=
  match mu with
  | Tick =>
      set_world (fun w => {| ticks := S (ticks w); fetched := fetched w;
                             posted := posted w; slept := slept w |}) s
  | Sleep d =>
      set_world (fun w => {| ticks := ticks w; fetched := fetched w;
                             posted := posted w; slept := slept w ++ [d] |}) s
  | Fetch req =>
      set_world (fun w => {| ticks := ticks w; fetched := fetched w ++ [req];
                             posted := posted w; slept := slept w |}) s
  | Post dl =>
      set_world (fun w => {| ticks := ticks w; fetched := fetched w;
                             posted := posted w ++ [dl]; slept := slept w |}) s
  | Api f => set_api_client f s
  | Failed f => set_failed_events f s
  | ActiveSet k d => set_active_streams (dict_set k d) s
  | ActiveDel k => set_active_streams (dict_del k) s
  | TokenSet k tok => set_chat_page_tokens (dict_set k tok) s
  | TokenDel k => set_chat_page_tokens (dict_del k) s
  | StatsEvents f => set_stats_events_forwarded f s
  | StatsApi f => set_stats_api_calls f s
  | LastCheck t => set_last_broadcast_check t s
  end.

Definition mutate_all (mus : list Mutation) (s : State) : State :=
  fold_left (fun s mu => mutate mu s) mus s.

(** [s'] comes from [s] by changes that all satisfy [P]. *)
Definition touches (P : Mutation -> Prop) (s s' : State) : Prop :=
  exists mus, Forall P mus /\ s' = mutate_all mus s.

(** Changes that concern neither the active set, nor the chat cursors, nor
    the wire. *)
Definition benign (mu : Mutation) : Prop :=
  match mu with
  | Post _ | ActiveSet _ _ | ActiveDel _ | TokenSet _ _ | TokenDel _ => False
  | _ => True
  end.

(** The three judgements on a monadic computation: its footprint, that it
    returns (raises nothing), and what it returns. *)
Definition steps {A} (P : Mutation -> Prop) (m : M A) : Prop :=
  forall s, touches P s (snd (m s)).

Definition returns {A} (m : M A) : Prop :=
  forall s, exists a, fst (m s) = Returned a.

Definition yields {A} (m : M A) (Q : A -> Prop) : Prop :=
  forall s a, fst (m s) = Returned a -> Q a.

(** The POSTs of [forward_event(event_type, event_data)]. *)
Definition forwards (env : Env) (config : YouTubeConfig) (event_type : string)
    (event_data : EventData) (mu : Mutation) : Prop :=
  match mu with
  | Post dl => exists t, request dl = build_request env config event_type event_data t
  | ActiveSet _ _ | ActiveDel _ | TokenSet _ _ | TokenDel _ => False
  | _ => True
  end.

Definition chat_types : list string :=
  ["youtube.chat.message"; "youtube.chat.superchat"; "youtube.chat.new_sponsor"].

(** The footprint of [_monitor_chat(video_id, _)]. *)
Definition chats_about (video_id : string) (mu : Mutation) : Prop :=
  match mu with
  | Post dl => In (post_type dl) chat_types /\
               event_video_id (post_event dl) = Some video_id
  | TokenSet k _ => k = video_id
  | ActiveSet _ _ | ActiveDel _ | TokenDel _ => False
  | _ => True
  end.

(** The footprint of one iteration of the loop over the broadcast list. *)
Definition checks (video_id : string) (mu : Mutation) : Prop :=
  match mu with
  | Post dl => In (post_type dl)
                  ("youtube.live.started" :: "youtube.live.viewers_updated"
                   :: chat_types) /\
               event_video_id (post_event dl) = Some video_id
  | ActiveSet k _ | TokenSet k _ => k = video_id
  | ActiveDel _ | TokenDel _ => False
  | _ => True
  end.

(** The footprint of one iteration of the loop over the ended streams. *)
Definition ends (video_id : string) (mu : Mutation) : Prop :=
  match mu with
  | Post dl => post_type dl = "youtube.live.ended" /\
               event_video_id (post_event dl) = Some video_id
  | ActiveDel k | TokenDel k => k = video_id
  | ActiveSet _ _ | TokenSet _ _ => False
  | _ => True
  end.

(** Nothing about [video_id]: no POST for it, its entry and cursor untouched. *)
Definition spares (video_id : string) (mu : Mutation) : Prop :=
  match mu with
  | Post dl => event_video_id (post_event dl) <> Some video_id
  | ActiveSet k _ | ActiveDel k | TokenSet k _ | TokenDel k => k <> video_id
  | _ => True
  end.

(** The loop over the broadcast list: what it touches. *)
Definition list_phase (mu : Mutation) : Prop :=
  match mu with
  | Post dl => post_type dl <> "youtube.live.ended"
  | ActiveDel _ | TokenDel _ => False
  | _ => True
  end.

(** What a newly seen stream, and the chat of a stream, put on the wire is
    never a ["viewers_updated"] event. *)
Definition quiet (mu : Mutation) : Prop :=
  match mu with
  | Post dl => post_type dl <> "youtube.live.viewers_updated"
  | _ => True
  end.

(* ===================================================================== *)
(** ** Concrete runs *)

Definition example_details (t : string) (viewers : Z) : VideoDetails :=
  {| snippet := {| title := t; description := "a stream";
                   channelId := "UC1"; channelTitle := "Channel" |};
     liveStreamingDetails :=
       Some {| actualStartTime := Some "2024-05-01T10:00:00Z";
               scheduledStartTime := None;
               concurrentViewers := Some viewers;
               activeLiveChatId := None |} |}.

Definition example_config : YouTubeConfig :=
  {| api_key := "key"; channel_id := "UC1";
     webhook_url := "http://localhost/webhooks/youtube";
     webhook_secret := "s" |}.

(** A world whose clock starts at 10:00 of day 0 and advances one second per
    reading, with fixed answers of the endpoints. *)
Definition example_env (search : GetOutcome (list Broadcast))
    (videos : string -> GetOutcome (list VideoDetails)) (ok : bool) : Env :=
  {| clock := fun n => hours 10 + seconds (Z.of_nat n);
     search_get := fun _ => search;
     videos_get := fun _ v => videos v;
     chat_get := fun _ _ _ => RequestException;
     post_ok := fun _ _ => ok;
     json_dumps := fun p => event_type p;
     hmac_sha256_hexdigest := fun key msg => (key ++ ":" ++ msg)%string |}.

Definition example_client (exceeded : bool) (used reset_date : Z) : APIClient :=
  {| api_calls := []; quota_exceeded := exceeded;
     quota_used_today := used; quota_reset_date := reset_date |}.

Definition example_state (client : APIClient) (active : dict VideoDetails)
    (tokens : dict string) (ring : list PendingEvent) (last_check : Time)
    : State :=
  {| world := {| ticks := 0; fetched := []; posted := []; slept := [] |};
     api_client := client;
     failed_events := ring;
     active_streams := active;
     chat_page_tokens := tokens;
     stats_events_forwarded := 0;
     stats_api_calls := 0;
     last_broadcast_check := last_check |}.

Definition no_streams : State :=
  example_state (example_client false 0 0) [] [] [] 0.

(** One active stream, V1, with 2000 viewers and a chat cursor. *)
Definition one_stream (last_check : Time) : State :=
  example_state (example_client false 0 0)
    [("V1", example_details "Stream" 2000)] [("V1", "cursor")] [] last_check.

(** V1 is active and the last full check was a minute ago. *)
Definition one_stream_checked_a_minute_ago : State :=
  one_stream (hours 10 - seconds 60).

(** The quota is exceeded, and the stored reset date is the day before. *)
Definition exceeded_yesterday : State :=
  example_state (example_client true 9000 (-1)) [] [] [] 0.

Definition not_exceeded_yesterday : State :=
  example_state (example_client false 9000 (-1)) [] [] [] 0.


(** The list call fails at the transport level, and so does every details
    call. *)
Definition env_list_call_fails : Env :=
  example_env RequestException (fun _ => RequestException) true.

(** Every POST fails. *)
Definition env_posts_fail : Env :=
  example_env RequestException (fun _ => RequestException) false.

(** V1 is listed and now has 2150 viewers. *)
Definition env_small_change : Env :=
  example_env (Response (Body [{| videoId := "V1" |}]))
    (fun _ => Response (Body [example_details "Stream" 2150])) true.

(** V1 is listed and now has 2300 viewers. *)
Definition env_large_change : Env :=
  example_env (Response (Body [{| videoId := "V1" |}]))
    (fun _ => Response (Body [example_details "Stream" 2300])) true.

(** The details of every video are unavailable; V2 is listed besides V1. *)
Definition env_no_details : Env :=
  example_env (Response (Body [{| videoId := "V1" |}; {| videoId := "V2" |}]))
    (fun _ => RequestException) true.

(** V2 is live and listed; V1 is not listed any more. *)
Definition env_v2_only : Env :=
  example_env (Response (Body [{| videoId := "V2" |}]))
    (fun _ => Response (Body [example_details "Other" 10])) true.

(** The hub's verification request. *)
Definition hub_verification : GetCallback :=
  {| path := "/youtube/callback?hub.mode=subscribe&hub.challenge=abc123";
     params := [("hub.mode", ("subscribe", [])); ("hub.challenge", ("abc123", []))] |}.

(* ===================================================================== *)
(** ** Proofs *)

Unset Implicit Arguments.

(** *** The monad *)

Lemma touches_refl P s : touches P s s.
Proof. exists []. split; [constructor | reflexivity]. Qed.

Lemma touches_trans P s1 s2 s3 :
  touches P s1 s2 -> touches P s2 s3 -> touches P s1 s3.
Proof.
  intros (m1 & H1 & ->) (m2 & H2 & ->). exists (m1 ++ m2). split.
  - apply Forall_app; auto.
  - unfold mutate_all. now rewrite fold_left_app.
Qed.

Lemma touches_one (P : Mutation -> Prop) mu s : P mu -> touches P s (mutate mu s).
Proof. intros H. exists [mu]. split; [repeat constructor; auto | reflexivity]. Qed.

Lemma touches_weaken (P Q : Mutation -> Prop) s s' :
  (forall mu, P mu -> Q mu) -> touches P s s' -> touches Q s s'.
Proof.
  intros H (mus & Hm & ->). exists mus. split; [|reflexivity].
  eapply Forall_impl; eauto.
Qed.

Lemma steps_weaken {A} (P Q : Mutation -> Prop) (m : M A) :
  (forall mu, P mu -> Q mu) -> steps P m -> steps Q m.
Proof. intros H Hs s. eapply touches_weaken; eauto. Qed.

Lemma steps_ret {A} P (a : A) : steps P (ret a).
Proof. intros s. apply touches_refl. Qed.

Lemma steps_raise {A} P e : steps P (@raise A e).
Proof. intros s. apply touches_refl. Qed.

Lemma steps_get_state P : steps P get_state.
Proof. intros s. apply touches_refl. Qed.

Lemma steps_bind {A B} P (m : M A) (k : A -> M B) :
  steps P m -> (forall a, steps P (k a)) -> steps P (bind m k).
Proof.
  intros Hm Hk s. unfold bind. specialize (Hm s).
  destruct (m s) as [[a|e] s1]; cbn in *; auto.
  eapply touches_trans; eauto. apply Hk.
Qed.

Lemma steps_mutate P mu : P mu -> steps P (modify (mutate mu)).
Proof. intros H s. now apply touches_one. Qed.

Lemma steps_when P c m : steps P m -> steps P (when c m).
Proof. destruct c; cbn; auto using steps_ret. Qed.

Lemma steps_for_each {A} P (xs : list A) body :
  (forall x, In x xs -> steps P (body x)) -> steps P (for_each xs body).
Proof.
  induction xs as [|x xs IH]; intros H; cbn.
  - apply steps_ret.
  - apply steps_bind; [apply H; now left|].
    intros _. apply IH. intros y Hy. apply H. now right.
Qed.

Lemma steps_for_each_with {A B} P (xs : list A) (body : A -> B -> M B) :
  (forall x b, In x xs -> steps P (body x b)) ->
  forall b, steps P (for_each_with xs b body).
Proof.
  induction xs as [|x xs IH]; intros H b; cbn.
  - apply steps_ret.
  - apply steps_bind; [apply H; now left|].
    intros b'. apply IH. intros y c Hy. apply H. now right.
Qed.

Lemma returns_ret {A} (a : A) : returns (ret a).
Proof. intros s. now exists a. Qed.

Lemma returns_bind {A B} (m : M A) (k : A -> M B) (Q : A -> Prop) :
  returns m -> yields m Q -> (forall a, Q a -> returns (k a)) ->
  returns (bind m k).
Proof.
  intros Hm Hy Hk s. unfold bind. destruct (Hm s) as [a Ha].
  specialize (Hy s a Ha). destruct (m s) as [r s1]; cbn in *; subst r.
  now apply Hk.
Qed.

Lemma returns_seq {A B} (m : M A) (k : A -> M B) :
  returns m -> (forall a, returns (k a)) -> returns (bind m k).
Proof.
  intros Hm Hk. apply returns_bind with (Q := fun _ => True); auto.
  now intros s a _.
Qed.

Lemma returns_modify f : returns (modify f).
Proof. intros s. now exists tt. Qed.

Lemma returns_get_state : returns get_state.
Proof. intros s. now exists s. Qed.

Lemma returns_when c m : returns m -> returns (when c m).
Proof. destruct c; cbn; auto using returns_ret. Qed.


Lemma yields_ret {A} (a : A) (Q : A -> Prop) : Q a -> yields (ret a) Q.
Proof. intros H s b Hb. cbn in Hb. now injection Hb as <-. Qed.

Lemma yields_bind {A B} (m : M A) (k : A -> M B) (Q : B -> Prop) :
  (forall a, yields (k a) Q) -> yields (bind m k) Q.
Proof.
  intros Hk s b. unfold bind. destruct (m s) as [[a|e] s1]; cbn.
  - apply Hk.
  - discriminate.
Qed.

Lemma yields_bind_from {A B} (m : M A) (k : A -> M B) (R : A -> Prop)
    (Q : B -> Prop) :
  yields m R -> (forall a, R a -> yields (k a) Q) -> yields (bind m k) Q.
Proof.
  intros Hm Hk s b. unfold bind. specialize (Hm s).
  destruct (m s) as [[a|e] s1]; cbn in *.
  - apply Hk. now apply Hm.
  - discriminate.
Qed.

Lemma yields_raise {A} e (Q : A -> Prop) : yields (raise e) Q.
Proof. intros s a H. discriminate. Qed.

Lemma yields_weaken {A} (m : M A) (Q R : A -> Prop) :
  (forall a, Q a -> R a) -> yields m Q -> yields m R.
Proof. intros H Hy s a Ha. apply H. eapply Hy; eauto. Qed.

(** *** Footprints of the program *)

Lemma steps_now P env : P Tick -> steps P (now env).
Proof. intros H s. now apply (touches_one P Tick). Qed.

Lemma steps_sleep P d : P (Sleep d) -> steps P (sleep d).
Proof. intros H s. now apply (touches_one P (Sleep d)). Qed.

Lemma steps_session_get {A} P req (oracle : nat -> GetOutcome A) :
  P (Fetch req) -> steps P (session_get req oracle).
Proof. intros H s. now apply (touches_one P (Fetch req)). Qed.

Lemma steps_session_post P env k req :
  (forall ok, P (Post {| attempt := k; request := req; delivered := ok |})) ->
  steps P (session_post env k req).
Proof. intros H s. apply (touches_one P (Post _)). apply H. Qed.

Ltac step :=
  match goal with
  | |- steps _ (bind _ _) => apply steps_bind; [|intros ?]
  | |- steps _ (ret _) => apply steps_ret
  | |- steps _ (raise _) => apply steps_raise
  | |- steps _ get_state => apply steps_get_state
  | |- steps _ (when _ _) => apply steps_when
  | |- steps _ (now _) => apply steps_now
  | |- steps _ (sleep _) => apply steps_sleep
  | |- steps _ (session_get _ _) => apply steps_session_get
  | |- steps _ (session_post _ _ _) => apply steps_session_post; intros ?
  | |- steps _ (modify (set_api_client ?f)) => apply (steps_mutate _ (Api f))
  | |- steps _ (modify (set_failed_events ?f)) =>
      apply (steps_mutate _ (Failed f))
  | |- steps _ (modify (set_active_streams (dict_set ?k ?d))) =>
      apply (steps_mutate _ (ActiveSet k d))
  | |- steps _ (modify (set_active_streams (dict_del ?k))) =>
      apply (steps_mutate _ (ActiveDel k))
  | |- steps _ (modify (set_chat_page_tokens (dict_set ?k ?d))) =>
      apply (steps_mutate _ (TokenSet k d))
  | |- steps _ (modify (set_chat_page_tokens (dict_del ?k))) =>
      apply (steps_mutate _ (TokenDel k))
  | |- steps _ (modify (set_stats_events_forwarded ?f)) =>
      apply (steps_mutate _ (StatsEvents f))
  | |- steps _ (modify (set_stats_api_calls ?f)) =>
      apply (steps_mutate _ (StatsApi f))
  | |- steps _ (modify (set_last_broadcast_check ?t)) =>
      apply (steps_mutate _ (LastCheck t))
  | |- steps _ (match ?x with _ => _ end) => destruct x
  end.

Ltac benign_steps Hb := repeat step; try (apply Hb; exact I).

Section Footprints.
Variable env : Env.
Variable config : YouTubeConfig.
Variable P : Mutation -> Prop.
Hypothesis Hb : forall mu, benign mu -> P mu.

Lemma steps_check_rate_limit : steps P (_check_rate_limit env).
Proof. unfold _check_rate_limit. benign_steps Hb. Qed.

Lemma steps_record_api_call op : steps P (_record_api_call env op).
Proof. unfold _record_api_call. benign_steps Hb. Qed.

Lemma steps_handle_api_response {A} (r : ResponseJson A) :
  steps P (_handle_api_response r).
Proof. unfold _handle_api_response. benign_steps Hb. Qed.

Lemma steps_get_live_broadcasts : steps P (get_live_broadcasts env config).
Proof.
  unfold get_live_broadcasts.
  repeat first [apply steps_check_rate_limit | apply steps_record_api_call
               | apply steps_handle_api_response | step];
    try (apply Hb; exact I).
Qed.

Lemma steps_get_video_details v : steps P (get_video_details env v).
Proof.
  unfold get_video_details.
  repeat first [apply steps_check_rate_limit | apply steps_record_api_call
               | apply steps_handle_api_response | step];
    try (apply Hb; exact I).
Qed.

Lemma steps_get_live_chat_messages c tok :
  steps P (get_live_chat_messages env c tok).
Proof.
  unfold get_live_chat_messages.
  repeat first [apply steps_check_rate_limit | apply steps_record_api_call
               | apply steps_handle_api_response | step];
    try (apply Hb; exact I).
Qed.
End Footprints.

Lemma steps_forward_event_from env config ty d k :
  steps (forwards env config ty d) (forward_event_from env config k ty d).
Proof.
  induction k as [|k IH]; cbn [forward_event_from];
    repeat first [apply IH | step]; cbn; eauto.
Qed.

Lemma steps_forward_event env config ty d :
  steps (forwards env config ty d) (forward_event env config ty d).
Proof. apply steps_forward_event_from. Qed.

Lemma steps_forward_and_count env config ty d :
  steps (forwards env config ty d) (forward_and_count env config ty d).
Proof.
  unfold forward_and_count.
  repeat first [apply steps_forward_event | step]; exact I.
Qed.

Lemma forwards_post env config ty d dl :
  forwards env config ty d (Post dl) -> post_type dl = ty /\ post_event dl = d.
Proof.
  intros [t Ht]. unfold post_type, post_event. rewrite Ht. now split.
Qed.

Lemma chat_event_about v item ty d :
  chat_event v item = Some (ty, d) ->
  In ty chat_types /\ event_video_id d = Some v.
Proof.
  unfold chat_event.
  destruct (chat_snippet item); intros H; inversion H; subst; cbn; auto.
Qed.

Lemma forwards_chats_about env config v item ty d mu :
  chat_event v item = Some (ty, d) ->
  forwards env config ty d mu -> chats_about v mu.
Proof.
  intros Hc H. destruct mu; cbn in *; try tauto.
  apply forwards_post in H as [-> ->]. now apply chat_event_about with item.
Qed.

Lemma benign_chats_about v mu : benign mu -> chats_about v mu.
Proof. destruct mu; cbn; tauto. Qed.

Lemma steps_monitor_chat env config v c :
  steps (chats_about v) (_monitor_chat env config v c).
Proof.
  unfold _monitor_chat.
  repeat first
    [ apply steps_get_live_chat_messages; apply benign_chats_about
    | apply steps_for_each; intros item _;
      destruct (chat_event v item) as [[ty d]|] eqn:E;
      [ eapply steps_weaken; [|apply steps_forward_and_count];
        intros mu; now apply forwards_chats_about with item
      | apply steps_ret ]
    | step ]; try exact I; try reflexivity.
Qed.

Lemma chats_about_checks v mu : chats_about v mu -> checks v mu.
Proof.
  destruct mu; cbn; tauto.
Qed.

Lemma steps_monitor_chat_if_available env config v d :
  steps (chats_about v) (monitor_chat_if_available env config v d).
Proof.
  unfold monitor_chat_if_available, live_details.
  repeat first [apply steps_monitor_chat | step].
Qed.

Lemma benign_checks v mu : benign mu -> checks v mu.
Proof. destruct mu; cbn; tauto. Qed.

Lemma forwards_checks env config v ty d mu :
  In ty ["youtube.live.started"; "youtube.live.viewers_updated"] ->
  event_video_id d = Some v ->
  forwards env config ty d mu -> checks v mu.
Proof.
  intros Hty Hv H. destruct mu; cbn in *; try tauto.
  apply forwards_post in H as [-> ->]. split; auto.
  destruct Hty as [<-|[<-|[]]]; auto.
Qed.

Lemma steps_check_broadcast env config b ids :
  steps (checks (videoId b)) (check_broadcast env config b ids).
Proof.
  unfold check_broadcast, live_details.
  repeat first
    [ apply steps_get_video_details; apply benign_checks
    | eapply steps_weaken;
        [apply chats_about_checks | apply steps_monitor_chat_if_available]
    | eapply steps_weaken; [|apply steps_forward_and_count];
        intros mu; apply forwards_checks; [cbn; tauto | reflexivity]
    | step ]; try exact I; try reflexivity.
Qed.

Lemma steps_refresh_stream env config v :
  steps (checks v) (refresh_stream env config v).
Proof.
  unfold refresh_stream, live_details, subscript.
  repeat first
    [ apply steps_get_video_details; apply benign_checks
    | eapply steps_weaken; [|apply steps_forward_and_count];
        intros mu; apply forwards_checks; [cbn; tauto | reflexivity]
    | step ]; try exact I; try reflexivity.
Qed.

Lemma steps_end_stream env config v :
  steps (ends v) (end_stream env config v).
Proof.
  unfold end_stream, subscript.
  repeat first
    [ eapply steps_weaken; [|apply steps_forward_and_count];
        (intros mu Hmu; destruct mu; cbn in *; try tauto;
         apply forwards_post in Hmu as [-> ->]; now split)
    | step ]; try exact I; try reflexivity.
Qed.

(** *** Dictionaries *)

Lemma dict_get_set_eq {V} k (v : V) d : dict_get k (dict_set k v d) = Some v.
Proof.
  induction d as [|[k' v'] d IH]; cbn.
  - now rewrite String.eqb_refl.
  - destruct (String.eqb k k') eqn:E; cbn; rewrite ?String.eqb_refl, ?E; auto.
Qed.

Lemma dict_get_set_neq {V} k k' (v : V) d :
  k' <> k -> dict_get k' (dict_set k v d) = dict_get k' d.
Proof.
  intros Hne. induction d as [|[k0 v0] d IH]; cbn.
  - now apply String.eqb_neq in Hne as ->.
  - destruct (String.eqb k k0) eqn:E; cbn.
    + apply String.eqb_eq in E as <-. now apply String.eqb_neq in Hne as ->.
    + now rewrite IH.
Qed.

Lemma dict_get_del_eq {V} k (d : dict V) : dict_get k (dict_del k d) = None.
Proof.
  induction d as [|[k0 v0] d IH]; cbn; auto.
  destruct (String.eqb k k0) eqn:E; cbn; rewrite ?E; auto.
Qed.

Lemma dict_get_del_neq {V} k k' (d : dict V) :
  k' <> k -> dict_get k' (dict_del k d) = dict_get k' d.
Proof.
  intros Hne. induction d as [|[k0 v0] d IH]; cbn; auto.
  destruct (String.eqb k k0) eqn:E; cbn.
  - apply String.eqb_eq in E as <-. now apply String.eqb_neq in Hne as ->.
  - now rewrite IH.
Qed.

Lemma dict_get_in_keys {V} k (d : dict V) :
  In k (dict_keys d) <-> dict_get k d <> None.
Proof.
  induction d as [|[k0 v0] d IH]; cbn; [tauto|].
  destruct (String.eqb k k0) eqn:E.
  - apply String.eqb_eq in E as ->. split; [discriminate | auto].
  - apply String.eqb_neq in E. rewrite <- IH. split; [intros [|]|]; auto.
    congruence.
Qed.


Lemma dict_keys_set {V} k (v : V) d :
  dict_keys (dict_set k v d) =
  if dict_mem k d then dict_keys d else dict_keys d ++ [k].
Proof.
  unfold dict_mem, dict_keys. induction d as [|[k0 v0] d IH]; cbn; auto.
  destruct (String.eqb k k0) eqn:E; cbn.
  - now apply String.eqb_eq in E as ->.
  - rewrite IH. now destruct (dict_get k d).
Qed.




(** *** What a footprint implies *)

Lemma mutate_all_app m1 m2 s :
  mutate_all (m1 ++ m2) s = mutate_all m2 (mutate_all m1 s).
Proof. unfold mutate_all. apply fold_left_app. Qed.

Lemma touches_preorder (P : Mutation -> Prop) (R : State -> State -> Prop) :
  (forall s, R s s) ->
  (forall a b c, R a b -> R b c -> R a c) ->
  (forall mu s, P mu -> R s (mutate mu s)) ->
  forall s s', touches P s s' -> R s s'.
Proof.
  intros Hrefl Htrans Hone s s' (mus & Hm & ->). revert s.
  induction Hm as [|mu mus Hmu _ IH]; intros s; cbn; auto.
  eapply Htrans; [apply Hone, Hmu | apply IH].
Qed.

Lemma touches_posts P (Q : Delivery -> Prop) s s' :
  (forall dl, P (Post dl) -> Q dl) ->
  touches P s s' ->
  exists ds, posted (world s') = posted (world s) ++ ds /\ Forall Q ds.
Proof.
  intros HQ. revert s s'. apply touches_preorder.
  - intros s. exists []. now rewrite app_nil_r.
  - intros a b c (d1 & E1 & F1) (d2 & E2 & F2). exists (d1 ++ d2).
    rewrite E2, E1, app_assoc. split; auto. now apply Forall_app.
  - intros mu s Hmu. destruct mu; cbn;
      try (exists []; now rewrite app_nil_r).
    exists [dl]. split; auto.
Qed.

Lemma posts_since_app s s' ds :
  posted (world s') = posted (world s) ++ ds -> posts_since s s' = ds.
Proof.
  intros E. unfold posts_since. rewrite E.
  rewrite skipn_app, skipn_all, Nat.sub_diag. reflexivity.
Qed.

Lemma touches_posts_since P (Q : Delivery -> Prop) s s' :
  (forall dl, P (Post dl) -> Q dl) ->
  touches P s s' -> Forall Q (posts_since s s').
Proof.
  intros HQ H. destruct (touches_posts P Q s s' HQ H) as (ds & E & F).
  now rewrite (posts_since_app s s' ds E).
Qed.

Lemma touches_active_get P v s s' :
  (forall k d, P (ActiveSet k d) -> k <> v) ->
  (forall k, P (ActiveDel k) -> k <> v) ->
  touches P s s' ->
  dict_get v (active_streams s') = dict_get v (active_streams s).
Proof.
  intros Hs Hd. revert s s'. apply touches_preorder; try congruence.
  intros mu s Hmu. destruct mu; cbn; auto.
  - apply dict_get_set_neq. intros ->. now apply (Hs _ _ Hmu).
  - apply dict_get_del_neq. intros ->. now apply (Hd _ Hmu).
Qed.

Lemma touches_token_get P v s s' :
  (forall k d, P (TokenSet k d) -> k <> v) ->
  (forall k, P (TokenDel k) -> k <> v) ->
  touches P s s' ->
  dict_get v (chat_page_tokens s') = dict_get v (chat_page_tokens s).
Proof.
  intros Hs Hd. revert s s'. apply touches_preorder; try congruence.
  intros mu s Hmu. destruct mu; cbn; auto.
  - apply dict_get_set_neq. intros ->. now apply (Hs _ _ Hmu).
  - apply dict_get_del_neq. intros ->. now apply (Hd _ Hmu).
Qed.

Lemma touches_active_same P s s' :
  (forall k d, ~ P (ActiveSet k d)) -> (forall k, ~ P (ActiveDel k)) ->
  touches P s s' -> active_streams s' = active_streams s.
Proof.
  intros Hs Hd. revert s s'. apply touches_preorder; try congruence.
  intros mu s Hmu. destruct mu; cbn; auto.
  - now apply Hs in Hmu.
  - now apply Hd in Hmu.
Qed.

Lemma touches_tokens_same P s s' :
  (forall k d, ~ P (TokenSet k d)) -> (forall k, ~ P (TokenDel k)) ->
  touches P s s' -> chat_page_tokens s' = chat_page_tokens s.
Proof.
  intros Hs Hd. revert s s'. apply touches_preorder; try congruence.
  intros mu s Hmu. destruct mu; cbn; auto.
  - now apply Hs in Hmu.
  - now apply Hd in Hmu.
Qed.

Lemma touches_active_grows P s s' :
  (forall k, ~ P (ActiveDel k)) ->
  touches P s s' ->
  forall k, In k (dict_keys (active_streams s)) ->
            In k (dict_keys (active_streams s')).
Proof.
  intros Hd. revert s s'.
  apply (@touches_preorder P
           (fun s s' => forall k, In k (dict_keys (active_streams s)) ->
                                  In k (dict_keys (active_streams s')))); auto.
  intros mu s Hmu k Hk. destruct mu; cbn -[dict_keys dict_set dict_del]; auto.
  - rewrite dict_keys_set. destruct (dict_mem _ _); auto.
    apply in_or_app. now left.
  - now apply Hd in Hmu.
Qed.


(** *** Results of the API calls *)

Lemma steps_bind_from {A B} P (m : M A) (k : A -> M B) (Q : A -> Prop) :
  steps P m -> yields m Q -> (forall a, Q a -> steps P (k a)) ->
  steps P (bind m k).
Proof.
  intros Hm Hy Hk s. unfold bind. specialize (Hm s). specialize (Hy s).
  destruct (m s) as [[a|e] s1]; cbn in *; auto.
  eapply touches_trans; eauto. now apply Hk, Hy.
Qed.

Ltac yield :=
  match goal with
  | |- yields (bind _ _) _ => apply yields_bind; intros ?
  | |- yields (ret _) _ => apply yields_ret
  | |- yields (raise _) _ => apply yields_raise
  | |- yields (match ?x with _ => _ end) _ => destruct x
  end.

Lemma yields_session_get {A} req (oracle : nat -> GetOutcome A) :
  yields (session_get req oracle) (fun r => exists n, r = oracle n).
Proof. intros s a H. cbn in H. injection H as <-. eauto. Qed.

Lemma yields_handle_api_response {A} (r : ResponseJson A) :
  yields (_handle_api_response r)
         (fun o => forall a, o = Some a -> r = Body a).
Proof.
  unfold _handle_api_response. repeat yield; congruence.
Qed.

(** [get_video_details] only returns what the [videos] endpoint served. *)
Lemma yields_get_video_details env v :
  yields (get_video_details env v)
    (fun o => forall d, o = Some d ->
       exists n items, videos_get env n v = Response (Body (d :: items))).
Proof.
  unfold get_video_details.
  apply yields_bind; intros s0. destruct (quota_exceeded _).
  { apply yields_ret. discriminate. }
  apply yields_bind; intros _.
  eapply yields_bind_from; [apply yields_session_get|].
  intros r [n ->]. cbn beta.
  destruct (videos_get env n v) as [|r] eqn:E.
  { apply yields_ret. discriminate. }
  apply yields_bind; intros _.
  eapply yields_bind_from; [apply yields_handle_api_response|].
  intros o Ho. apply yields_ret. intros d Hd.
  destruct o as [items|]; [|discriminate].
  rewrite (Ho _ eq_refl) in E. destruct items as [|d' items]; [discriminate|].
  injection Hd as ->. eauto.
Qed.

Lemma get_video_details_none env v :
  details_unavailable env v ->
  yields (get_video_details env v) (fun o => o = None).
Proof.
  intros Hna. eapply yields_weaken; [|apply yields_get_video_details].
  intros [d|] H; auto. destruct (H d eq_refl) as (n & items & E).
  specialize (Hna n). now rewrite E in Hna.
Qed.

Lemma yields_check_broadcast env config b ids :
  yields (check_broadcast env config b ids)
         (fun r => r = ids ++ [videoId b]).
Proof. unfold check_broadcast. repeat yield; reflexivity. Qed.

Lemma yields_broadcast_loop env config bs :
  forall ids,
    yields (for_each_with bs ids (check_broadcast env config))
           (fun r => r = ids ++ map videoId bs).
Proof.
  induction bs as [|b bs IH]; intros ids; cbn.
  - apply yields_ret. now rewrite app_nil_r.
  - eapply yields_bind_from; [apply yields_check_broadcast|].
    intros r ->. eapply yields_weaken; [|apply IH].
    intros a ->. now rewrite <- app_assoc.
Qed.

Lemma set_mem_In k l : set_mem k l = true <-> In k l.
Proof.
  unfold set_mem. rewrite existsb_exists. split.
  - intros (x & Hx & E). now apply String.eqb_eq in E as ->.
  - intros H. exists k. split; auto. apply String.eqb_refl.
Qed.

Lemma ended_streams_spec active ids k :
  In k (ended_streams active ids) <-> In k (dict_keys active) /\ ~ In k ids.
Proof.
  unfold ended_streams. rewrite filter_In, negb_true_iff.
  split; intros [H1 H2]; split; auto.
  - intros Hin. apply set_mem_In in Hin. congruence.
  - destruct (set_mem k ids) eqn:E; auto. apply set_mem_In in E. contradiction.
Qed.

(** *** Frame of a full check around a stream whose details are missing *)

Lemma checks_spares x v mu : x <> v -> checks x mu -> spares v mu.
Proof.
  intros Hne. destruct mu; cbn; try tauto; try congruence.
  intros [_ H]. congruence.
Qed.

Lemma ends_spares x v mu : x <> v -> ends x mu -> spares v mu.
Proof.
  intros Hne. destruct mu; cbn; try tauto; try congruence.
  intros [_ H]. congruence.
Qed.

Lemma benign_spares v mu : benign mu -> spares v mu.
Proof. destruct mu; cbn; tauto. Qed.

Lemma steps_check_broadcast_spares env config v b ids :
  details_unavailable env v ->
  steps (spares v) (check_broadcast env config b ids).
Proof.
  intros Hna. destruct (String.eqb (videoId b) v) eqn:E.
  - apply String.eqb_eq in E. unfold check_broadcast. rewrite E.
    eapply steps_bind_from;
      [ apply steps_get_video_details, benign_spares
      | now apply get_video_details_none | ].
    intros o ->. repeat step. exact I.
  - apply String.eqb_neq in E.
    eapply steps_weaken; [|apply steps_check_broadcast].
    intros mu. now apply checks_spares.
Qed.

Lemma steps_reconcile_spares env config v broadcasts :
  details_unavailable env v ->
  In v (map videoId broadcasts) ->
  steps (spares v) (reconcile env config broadcasts).
Proof.
  intros Hna Hin. unfold reconcile.
  apply steps_bind; [step; exact I | intros _].
  eapply steps_bind_from;
    [ apply steps_for_each_with; intros; now apply steps_check_broadcast_spares
    | apply yields_broadcast_loop | ].
  intros ids ->. cbn [app].
  apply steps_bind; [step | intros s1].
  apply steps_for_each. intros x Hx.
  apply ended_streams_spec in Hx as [_ Hx].
  eapply steps_weaken; [|apply steps_end_stream].
  intros mu. apply ends_spares. congruence.
Qed.

Lemma check_broadcast_no_details env config b ids s :
  fst (get_video_details env (videoId b) s) = Returned None ->
  let r := check_broadcast env config b ids s in
  fst r = Returned (ids ++ [videoId b]) /\
  posts_since s (snd r) = [] /\
  active_streams (snd r) = active_streams s /\
  chat_page_tokens (snd r) = chat_page_tokens s.
Proof.
  intros Hnone r. subst r. unfold check_broadcast, bind.
  pose proof (steps_get_video_details env benign (fun mu H => H)
                (videoId b) s) as Ht.
  destruct (get_video_details env (videoId b) s) as [o s1].
  cbn [fst snd] in *. subst o. unfold modify. cbn [fst snd ret].
  split; [reflexivity|].
  destruct (touches_posts benign (fun _ => False) s s1 (fun dl H => H) Ht)
    as (ds & E & F).
  destruct ds as [|dl ds]; [|inversion F; contradiction].
  rewrite app_nil_r in E. split; [|split].
  - apply (posts_since_app s _ []). cbn. now rewrite app_nil_r.
  - apply (touches_active_same benign s s1); cbn; auto.
  - apply (touches_tokens_same benign s s1); cbn; auto.
Qed.

(** C10.  In a full check, the iteration for a listed video whose details
    fetch gives [None] adds the identifier to the current set and does no
    more: no POST, the active set and the chat cursors as they were.  A video
    in the current set is never among the ended streams.  So, over the whole
    check, a listed video whose details are unavailable gets no POST of any
    kind, and its entry in the active set and its chat cursor are what they
    were: an active stream in this situation is not evicted. *)
Theorem missing_details_leave_stream_untouched
    (env : Env) (config : YouTubeConfig) (video_id : string) (s : State) :
  (forall broadcast current_stream_ids,
     videoId broadcast = video_id ->
     fst (get_video_details env video_id s) = Returned None ->
     let r := check_broadcast env config broadcast current_stream_ids s in
     fst r = Returned (current_stream_ids ++ [video_id]) /\
     posts_since s (snd r) = [] /\
     active_streams (snd r) = active_streams s /\
     chat_page_tokens (snd r) = chat_page_tokens s) /\
  (forall active current_stream_ids,
     In video_id current_stream_ids ->
     ~ In video_id (ended_streams active current_stream_ids)) /\
  (forall broadcasts,
     details_unavailable env video_id ->
     In video_id (map videoId broadcasts) ->
     let s' := snd (reconcile env config broadcasts s) in
     Forall (fun dl => event_video_id (post_event dl) <> Some video_id)
            (posts_since s s') /\
     dict_get video_id (active_streams s') =
       dict_get video_id (active_streams s) /\
     dict_get video_id (chat_page_tokens s') =
       dict_get video_id (chat_page_tokens s)).
Proof.
  split; [|split].
  - intros b ids <- Hnone. now apply check_broadcast_no_details.
  - intros active ids Hin Hend. apply ended_streams_spec in Hend as [_ H].
    contradiction.
  - intros broadcasts Hna Hin s'.
    assert (H : touches (spares video_id) s s')
      by now apply steps_reconcile_spares.
    split; [|split].
    + eapply touches_posts_since; [|exact H]. now cbn.
    + eapply touches_active_get; [| |exact H]; now cbn.
    + eapply touches_token_get; [| |exact H]; now cbn.
Qed.

(** *** The forwarder *)

Lemma forward_event_from_run env config ty d k s :
  let ds := deliveries env config ty d k
              (ticks (world s)) (List.length (posted (world s))) in
  exists s',
    forward_event_from env config k ty d s =
      (Returned (existsb delivered ds), s') /\
    posted (world s') = posted (world s) ++ ds /\
    failed_events s' =
      (if existsb delivered ds then failed_events s
       else deque_append 100 (failed_events s)
              (ty, d, clock env (ticks (world s) + List.length ds))) /\
    (ticks (world s) <= ticks (world s'))%nat.
Proof.
  revert s. induction k as [|k IH]; intros s; cbn zeta.
  - cbn [forward_event_from deliveries].
    unfold bind, now, session_post, modify, ret. cbn -[deque_append Nat.sub].
    destruct (post_ok env _ _); cbn -[deque_append Nat.sub].
    + eexists. split; [reflexivity|]. cbn. auto.
    + eexists. split; [reflexivity|]. cbn -[deque_append].
      split; auto. rewrite Nat.add_1_r. auto.
  - cbn [forward_event_from deliveries].
    unfold bind at 1 2. unfold now at 1. unfold session_post at 1.
    cbn -[deque_append Nat.sub forward_event_from deliveries bind].
    destruct (post_ok env _ _) eqn:Hok;
      cbn -[deque_append Nat.sub forward_event_from deliveries bind].
    + eexists. split; [reflexivity|]. cbn. auto.
    + unfold bind at 1. unfold sleep at 1. unfold modify at 1.
      match goal with
      | |- context [forward_event_from env config k ty d ?s1] =>
          destruct (IH s1) as (s' & E & Hp & Hf & Ht)
      end.
      cbn -[deque_append Nat.sub forward_event_from deliveries] in E, Hp, Hf, Ht.
      rewrite length_app in E, Hp, Hf. cbn [List.length] in E, Hp, Hf.
      rewrite Nat.add_1_r in E, Hp, Hf.
      exists s'. split; [exact E|]. split; [|split].
      * rewrite Hp, <- app_assoc. reflexivity.
      * rewrite Hf. cbn [List.length].
        now rewrite Nat.add_succ_r.
      * lia.
Qed.

Lemma forward_event_run env config ty d s :
  let ds := attempts env config ty d s in
  exists s',
    forward_event env config ty d s = (Returned (existsb delivered ds), s') /\
    posted (world s') = posted (world s) ++ ds /\
    failed_events s' =
      (if existsb delivered ds then failed_events s
       else deque_append 100 (failed_events s)
              (ty, d, clock env (ticks (world s) + List.length ds))) /\
    (ticks (world s) <= ticks (world s'))%nat.
Proof. apply forward_event_from_run. Qed.

Lemma deliveries_later env config ty d k t n :
  (k < 3)%nat ->
  Forall (fun dl => attempt dl <> 0%nat) (deliveries env config ty d k t n).
Proof.
  revert t n. induction k as [|k IH]; intros t n Hk; cbn [deliveries].
  - constructor; [cbn [attempt]; lia|]. destruct (post_ok _ _ _); constructor.
  - constructor; [cbn [attempt]; lia|]. destruct (post_ok _ _ _); [constructor|].
    apply IH. lia.
Qed.

Lemma events_of_later ds :
  Forall (fun dl => attempt dl <> 0%nat) ds -> events_of ds = [].
Proof.
  unfold events_of. induction 1 as [|dl ds H _ IH]; cbn; auto.
  apply Nat.eqb_neq in H. now rewrite H.
Qed.

Lemma events_of_cons dl ds :
  events_of (dl :: ds) =
  if Nat.eqb (attempt dl) 0
  then (post_type dl, post_event dl) :: events_of ds
  else events_of ds.
Proof. unfold events_of. cbn. now destruct (Nat.eqb (attempt dl) 0). Qed.

Lemma events_of_app ds1 ds2 :
  events_of (ds1 ++ ds2) = events_of ds1 ++ events_of ds2.
Proof. unfold events_of. now rewrite filter_app, map_app. Qed.

(** A call of [forward_event] hands exactly its event to the wire. *)
Lemma events_of_attempts env config ty d s :
  events_of (attempts env config ty d s) = [(ty, d)].
Proof.
  unfold attempts.
  change (deliveries env config ty d 3 (ticks (world s))
            (List.length (posted (world s))))
    with (let req := build_request env config ty d
                       (clock env (ticks (world s))) in
          let ok := post_ok env (List.length (posted (world s))) req in
          {| attempt := 0; request := req; delivered := ok |} ::
          (if ok then []
           else deliveries env config ty d 2 (S (ticks (world s)))
                  (S (List.length (posted (world s)))))).
  cbn zeta. rewrite events_of_cons. cbn [attempt Nat.eqb].
  rewrite events_of_later; auto.
  destruct (post_ok _ _ _); [constructor|]. apply deliveries_later. lia.
Qed.

Lemma deliveries_all_fail env config ty d k t n :
  (forall j, (j <= k)%nat ->
     post_ok env (n + j)
       (build_request env config ty d (clock env (t + j))) = false) ->
  existsb delivered (deliveries env config ty d k t n) = false /\
  List.length (deliveries env config ty d k t n) = S k.
Proof.
  revert t n. induction k as [|k IH]; intros t n H; cbn [deliveries].
  - specialize (H 0%nat (le_n _)). rewrite !Nat.add_0_r in H. rewrite H.
    cbn. auto.
  - pose proof (H 0%nat (Nat.le_0_l _)) as H0. rewrite !Nat.add_0_r in H0.
    rewrite H0. cbn [existsb delivered orb List.length].
    destruct (IH (S t) (S n)) as [E L].
    { intros j Hj. specialize (H (S j)). rewrite !Nat.add_succ_r in H.
      apply H. lia. }
    now rewrite E, L.
Qed.

Lemma deliveries_success env config ty d k t n j :
  (j <= k)%nat ->
  (forall i, (i < j)%nat ->
     post_ok env (n + i)
       (build_request env config ty d (clock env (t + i))) = false) ->
  post_ok env (n + j)
    (build_request env config ty d (clock env (t + j))) = true ->
  existsb delivered (deliveries env config ty d k t n) = true /\
  List.length (deliveries env config ty d k t n) = S j.
Proof.
  revert t n j. induction k as [|k IH]; intros t n j Hj Hf Hs;
    cbn [deliveries].
  - assert (j = 0)%nat as -> by lia. rewrite !Nat.add_0_r in Hs. rewrite Hs.
    cbn. auto.
  - destruct j as [|j].
    + rewrite !Nat.add_0_r in Hs. rewrite Hs. cbn. auto.
    + pose proof (Hf 0%nat (Nat.lt_0_succ _)) as H0.
      rewrite !Nat.add_0_r in H0. rewrite H0.
      cbn [existsb delivered orb List.length].
      destruct (IH (S t) (S n) j) as [E L]; [lia| |..].
      * intros i Hi. specialize (Hf (S i)). rewrite !Nat.add_succ_r in Hf.
        apply Hf. lia.
      * now rewrite !Nat.add_succ_r in Hs.
      * now rewrite E, L.
Qed.

(** C5.  A call of [forward_event] whose POST fails on the first attempt and
    on the three retries returns [False], has made four POSTs and has appended
    the one entry for its event to [failed_events]; a call one of whose
    attempts succeeds returns [True], stops at that attempt, and leaves
    [failed_events] as it was. *)
Theorem forward_event_enqueues_once_after_four_failures
    (env : Env) (config : YouTubeConfig) (event_type : string)
    (event_data : EventData) (s : State) :
  let r := forward_event env config event_type event_data s in
  ((forall j, (j < 4)%nat ->
      attempt_ok env config event_type event_data s j = false) ->
   fst r = Returned false /\
   List.length (posts_since s (snd r)) = 4%nat /\
   failed_events (snd r) =
     deque_append 100 (failed_events s)
       (event_type, event_data, clock env (ticks (world s) + 4))) /\
  (forall j, (j < 4)%nat ->
     (forall i, (i < j)%nat ->
        attempt_ok env config event_type event_data s i = false) ->
     attempt_ok env config event_type event_data s j = true ->
     fst r = Returned true /\
     List.length (posts_since s (snd r)) = S j /\
     failed_events (snd r) = failed_events s).
Proof.
  intros r. subst r.
  destruct (forward_event_run env config event_type event_data s)
    as (s' & E & Hp & Hf & _).
  rewrite E. cbn [fst snd]. rewrite (posts_since_app s s' _ Hp).
  unfold attempts in *. split.
  - intros H.
    destruct (deliveries_all_fail env config event_type event_data 3
                (ticks (world s)) (List.length (posted (world s)))) as [Ex L].
    { intros j Hj. apply H. lia. }
    rewrite Ex in *. rewrite L in *. auto.
  - intros j Hj Hfail Hok.
    destruct (deliveries_success env config event_type event_data 3
                (ticks (world s)) (List.length (posted (world s))) j)
      as [Ex L]; [lia|exact Hfail|exact Hok|].
    rewrite Ex in *. rewrite L. auto.
Qed.

(** C9.  With a secret configured, every POST of [forward_event] carries the
    envelope {event_type, event, timestamp, source} of this event, and its
    [X-Hub-Signature] header is ["sha256="] followed by the hex HMAC-SHA256,
    keyed by the secret, of the serialised envelope, which is the body of
    that same POST. *)
Theorem signature_header_signs_post_body
    (env : Env) (config : YouTubeConfig) (event_type : string)
    (event_data : EventData) (s : State) :
  webhook_secret config <> "" ->
  let ds := posts_since s (snd (forward_event env config event_type event_data s)) in
  ds <> [] /\
  Forall (fun dl =>
            (exists t, json (request dl) =
                         {| event_type := event_type; event := event_data;
                            timestamp := t; source := "youtube" |}) /\
            dict_get "X-Hub-Signature" (headers (request dl)) =
              Some ("sha256=" ++
                    hmac_sha256_hexdigest env (webhook_secret config)
                      (post_body env (request dl)))%string)
         ds.
Proof.
  intros Hsecret ds. subst ds. split.
  - destruct (forward_event_run env config event_type event_data s)
      as (s' & E & Hp & _).
    rewrite E. cbn [snd]. rewrite (posts_since_app s s' _ Hp).
    unfold attempts. cbn [deliveries]. discriminate.
  - eapply touches_posts_since; [|apply steps_forward_event].
    intros dl [t Ht]. rewrite Ht. unfold post_body. split.
    + exists t. reflexivity.
    + unfold build_request. cbn [headers json].
      apply String.eqb_neq in Hsecret. rewrite Hsecret. reflexivity.
Qed.

(** *** The sweep of the pending ring *)








(** *** The quota tracker *)

Lemma check_rate_limit_effect (env : Env) (s : State) :
  exists s', _check_rate_limit env s = (Returned tt, s') /\
    ticks (world s') = S (ticks (world s)) /\
    fetched (world s') = fetched (world s) /\
    quota_exceeded (api_client s') = quota_exceeded (api_client s) /\
    quota_used_today (api_client s') = quota_used_today (api_client s) /\
    quota_reset_date (api_client s') = quota_reset_date (api_client s).
Proof.
  unfold _check_rate_limit, bind, now, modify, get_state, when.
  cbn [fst snd].
  destruct (50 <=? _).
  - destruct (api_calls _) as [|c0 rest].
    + eexists; split; [reflexivity|]. cbn. repeat split.
    + destruct (_ >? 0); eexists; (split; [reflexivity|cbn; repeat split]).
  - eexists; split; [reflexivity|cbn; repeat split].
Qed.

Lemma record_api_call_new_day env operation s :
  date_of (clock env (S (ticks (world s)))) <> quota_reset_date (api_client s) ->
  let s' := snd (_record_api_call env operation s) in
  quota_used_today (api_client s') = operation_cost operation /\
  quota_reset_date (api_client s') = date_of (clock env (S (ticks (world s)))).
Proof.
  intros H. apply Z.eqb_neq in H.
  unfold _record_api_call, bind, now, modify, get_state, when.
  cbn -[deque_append date_of dict_get quota_costs].
  rewrite H. cbn -[deque_append date_of dict_get quota_costs].
  unfold operation_cost. split; reflexivity.
Qed.

Lemma handle_api_response_quota {A} (r : ResponseJson A) s :
  quota_used_today (api_client (snd (_handle_api_response r s))) =
  quota_used_today (api_client s).
Proof.
  unfold _handle_api_response. destruct r as [|code reasons|a]; try reflexivity.
  destruct (match code with Some c => c =? 403 | None => false end);
    [|reflexivity].
  destruct (existsb is_quota_reason reasons); reflexivity.
Qed.

(** A charged call on a new UTC day leaves the total at the cost of the
    operation: the three operations, when the GET gets a response. *)
Lemma charged_call_new_day {A B} env (req : GetRequest)
    (oracle : nat -> GetOutcome A) (operation : string)
    (k : option A -> M B) (r : ResponseJson A) s :
  oracle (List.length (fetched (world s))) = Response r ->
  date_of (clock env (S (S (ticks (world s))))) <> quota_reset_date (api_client s) ->
  (forall o s1, quota_used_today (api_client (snd (k o s1))) =
                quota_used_today (api_client s1)) ->
  quota_used_today
    (api_client
       (snd ((_check_rate_limit env ;;
              response <- session_get req oracle ;;
              match response with
              | RequestException => k None
              | Response r =>
                  _record_api_call env operation ;;
                  data <- _handle_api_response r ;;
                  k data
              end)%monad s))) = operation_cost operation.
Proof.
  intros Hr Hday Hk.
  destruct (check_rate_limit_effect env s) as (s1 & E & Ht & Hf & _ & _ & Hd).
  unfold bind at 1. rewrite E.
  unfold bind at 1. unfold session_get at 1. cbn [fst snd].
  rewrite Hf, Hr.
  match goal with
  | |- context [bind (_record_api_call env operation) _ ?s2] =>
      assert (H2 : quota_used_today
                     (api_client (snd (_record_api_call env operation s2))) =
                   operation_cost operation)
        by (apply record_api_call_new_day; cbn; rewrite Ht, Hd; exact Hday);
      unfold bind at 1;
      destruct (_record_api_call env operation s2) as [[[]|e] s3]
  end; cbn [snd] in *; auto.
  unfold bind. rewrite <- H2, <- (handle_api_response_quota r s3).
  destruct (_handle_api_response r s3) as [[o|e] s4]; cbn [snd]; auto.
Qed.

(** C4.  With the quota already exceeded, each of the three API operations is
    refused: it returns its empty result and leaves the whole state, the
    cumulative total included, as it was.  A call recorded on a day other
    than the stored reset date sets the total to zero before charging, so
    the total is then the cost of that one operation; this is what the three
    operations do when their GET is answered. *)
Theorem quota_refusal_and_daily_reset
    (env : Env) (config : YouTubeConfig) (s : State) :
  (quota_exceeded (api_client s) = true ->
   get_live_broadcasts env config s = (Returned [], s) /\
   (forall video_id, get_video_details env video_id s = (Returned None, s)) /\
   (forall chat_id page_token,
      get_live_chat_messages env chat_id page_token s = (Returned None, s))) /\
  (forall operation,
     date_of (clock env (S (ticks (world s)))) <> quota_reset_date (api_client s) ->
     let s' := snd (_record_api_call env operation s) in
     quota_used_today (api_client s') = operation_cost operation /\
     quota_reset_date (api_client s') = date_of (clock env (S (ticks (world s))))) /\
  (quota_exceeded (api_client s) = false ->
   date_of (clock env (S (S (ticks (world s))))) <> quota_reset_date (api_client s) ->
   (forall r, search_get env (List.length (fetched (world s))) = Response r ->
      quota_used_today (api_client (snd (get_live_broadcasts env config s))) = 100) /\
   (forall video_id r,
      videos_get env (List.length (fetched (world s))) video_id = Response r ->
      quota_used_today (api_client (snd (get_video_details env video_id s))) = 1) /\
   (forall chat_id page_token r,
      chat_get env (List.length (fetched (world s))) chat_id
        (page_token_param page_token) = Response r ->
      quota_used_today
        (api_client (snd (get_live_chat_messages env chat_id page_token s))) = 5)).
Proof.
  split; [|split].
  - intros H. unfold get_live_broadcasts, get_video_details,
      get_live_chat_messages, bind, get_state. rewrite H. repeat split.
  - intros operation. apply record_api_call_new_day.
  - intros H Hday.
    unfold get_live_broadcasts, get_video_details, get_live_chat_messages.
    unfold bind at 1 6 11. unfold get_state. rewrite H. split; [|split].
    + intros r Hr.
      apply (charged_call_new_day env (GetSearch (channel_id config))
               (search_get env) "search"
               (fun data => ret (match data with
                                 | Some items => items | None => [] end))
               r s Hr Hday).
      reflexivity.
    + intros video_id r Hr.
      apply (charged_call_new_day env (GetVideos video_id)
               (fun n => videos_get env n video_id) "videos"
               (fun data => ret (match data with
                                 | Some items => hd_error items
                                 | None => None end))
               r s Hr Hday).
      reflexivity.
    + intros chat_id page_token r Hr.
      apply (charged_call_new_day env
               (GetChat chat_id (page_token_param page_token))
               (fun n => chat_get env n chat_id (page_token_param page_token))
               "liveChatMessages" (fun data => ret data) r s Hr Hday).
      reflexivity.
Qed.

(** *** Termination without exception *)

Lemma returns_now env : returns (now env).
Proof. intros s. eexists. reflexivity. Qed.

Lemma returns_sleep d : returns (sleep d).
Proof. intros s. now exists tt. Qed.

Lemma returns_session_get {A} req (oracle : nat -> GetOutcome A) :
  returns (session_get req oracle).
Proof. intros s. eexists. reflexivity. Qed.

Lemma returns_session_post env k req : returns (session_post env k req).
Proof. intros s. eexists. reflexivity. Qed.

Ltac finish :=
  match goal with
  | |- returns (bind _ _) => apply returns_seq; [|intros ?]
  | |- returns (ret _) => apply returns_ret
  | |- returns get_state => apply returns_get_state
  | |- returns (modify _) => apply returns_modify
  | |- returns (when _ _) => apply returns_when
  | |- returns (now _) => apply returns_now
  | |- returns (sleep _) => apply returns_sleep
  | |- returns (session_get _ _) => apply returns_session_get
  | |- returns (session_post _ _ _) => apply returns_session_post
  | |- returns (match ?x with _ => _ end) => destruct x
  end.

Lemma returns_check_rate_limit env : returns (_check_rate_limit env).
Proof. unfold _check_rate_limit. repeat finish. Qed.

Lemma returns_record_api_call env op : returns (_record_api_call env op).
Proof. unfold _record_api_call. repeat finish. Qed.

Lemma returns_handle_api_response {A} (r : ResponseJson A) :
  returns (_handle_api_response r).
Proof. unfold _handle_api_response. repeat finish. Qed.

Lemma returns_get_live_broadcasts env config :
  returns (get_live_broadcasts env config).
Proof.
  unfold get_live_broadcasts.
  repeat first [apply returns_check_rate_limit | apply returns_record_api_call
               | apply returns_handle_api_response | finish].
Qed.

Lemma returns_get_video_details env v : returns (get_video_details env v).
Proof.
  unfold get_video_details.
  repeat first [apply returns_check_rate_limit | apply returns_record_api_call
               | apply returns_handle_api_response | finish].
Qed.







(** *** Ending streams *)

Lemma dict_del_absent {V} k (d : dict V) :
  dict_get k d = None -> dict_del k d = d.
Proof.
  induction d as [|[k0 v0] d IH]; cbn; auto.
  destruct (String.eqb k k0); [discriminate|]. intros H. now rewrite IH.
Qed.

Lemma dict_empty {V} (d : dict V) : (forall k, dict_get k d = None) -> d = [].
Proof.
  destruct d as [|[k v] d]; auto. intros H. specialize (H k). cbn in H.
  now rewrite String.eqb_refl in H.
Qed.

Lemma forwards_no_active env config ty d :
  (forall k x, ~ forwards env config ty d (ActiveSet k x)) /\
  (forall k, ~ forwards env config ty d (ActiveDel k)) /\
  (forall k x, ~ forwards env config ty d (TokenSet k x)) /\
  (forall k, ~ forwards env config ty d (TokenDel k)).
Proof. cbn. tauto. Qed.

Lemma forward_and_count_run env config ty d s :
  exists s',
    forward_and_count env config ty d s = (Returned tt, s') /\
    posted (world s') = posted (world s) ++ attempts env config ty d s /\
    active_streams s' = active_streams s /\
    chat_page_tokens s' = chat_page_tokens s.
Proof.
  destruct (forwards_no_active env config ty d) as (A1 & A2 & T1 & T2).
  pose proof (steps_forward_event env config ty d s) as Ht.
  destruct (forward_event_run env config ty d s) as (s' & E & Hp & _).
  rewrite E in Ht. cbn [snd] in Ht.
  pose proof (touches_active_same _ _ _ A1 A2 Ht) as Ha.
  pose proof (touches_tokens_same _ _ _ T1 T2 Ht) as Hk.
  unfold forward_and_count, bind. rewrite E.
  destruct (existsb delivered _); cbn; (eexists; split; [reflexivity|]);
    cbn; auto.
Qed.

Lemma end_stream_run env config x s :
  dict_get x (active_streams s) <> None ->
  exists s' ds data,
    end_stream env config x s = (Returned tt, s') /\
    posted (world s') = posted (world s) ++ ds /\
    events_of ds = [("youtube.live.ended", data)] /\
    event_video_id data = Some x /\
    active_streams s' = dict_del x (active_streams s) /\
    chat_page_tokens s' = dict_del x (chat_page_tokens s).
Proof.
  intros Hx. unfold end_stream, subscript.
  unfold bind at 1. cbn [get_state].
  destruct (dict_get x (active_streams s)) as [details|]; [|contradiction].
  unfold bind at 1. cbn [ret]. unfold bind at 1. unfold now at 1.
  cbn [fst snd]. fold (mutate Tick s). unfold bind at 1.
  match goal with
  | |- context [forward_and_count env config ?ty ?d ?s1] =>
      destruct (forward_and_count_run env config ty d s1)
        as (s2 & E & Hp & Ha & Hk)
  end.
  rewrite E. unfold bind, modify, get_state, when. cbn [fst snd] in *.
  cbn [mutate set_world set_active_streams world posted active_streams
       chat_page_tokens] in *.
  assert (Hd : dict_mem x (chat_page_tokens s2) = false ->
               dict_del x (chat_page_tokens s) = chat_page_tokens s).
  { unfold dict_mem. rewrite Hk.
    destruct (dict_get x (chat_page_tokens s)) eqn:Eg; [discriminate|].
    intros _. now apply dict_del_absent. }
  destruct (dict_mem x (chat_page_tokens s2)) eqn:Em;
    (do 3 eexists; split; [reflexivity|]); cbn;
    (split; [exact Hp|]); (split; [apply events_of_attempts|]);
    (split; [reflexivity|]); rewrite ?Ha, ?Hk; split; auto.
  symmetry. now apply Hd.
Qed.


Lemma ended_count_app v e1 e2 :
  ended_count v (e1 ++ e2) = (ended_count v e1 + ended_count v e2)%nat.
Proof. unfold ended_count. now rewrite filter_app, length_app. Qed.

Lemma ended_count_one v x data :
  event_video_id data = Some x ->
  ended_count v [("youtube.live.ended", data)] =
  if String.eqb v x then 1%nat else 0%nat.
Proof.
  intros H. unfold ended_count, is_ended_for. cbn [filter fst snd].
  rewrite H, String.eqb_refl, (String.eqb_sym x v). cbn [andb].
  now destruct (String.eqb v x).
Qed.

Lemma set_mem_cons v x l :
  set_mem v (x :: l) = String.eqb v x || set_mem v l.
Proof. reflexivity. Qed.

Lemma set_mem_false v l : ~ In v l -> set_mem v l = false.
Proof.
  intros H. destruct (set_mem v l) eqn:E; auto.
  apply set_mem_In in E. contradiction.
Qed.

Lemma end_streams_run env config l :
  forall s,
    NoDup l ->
    (forall x, In x l -> dict_get x (active_streams s) <> None) ->
    exists s' ds,
      for_each l (end_stream env config) s = (Returned tt, s') /\
      posted (world s') = posted (world s) ++ ds /\
      (forall v, ended_count v (events_of ds) =
                 if set_mem v l then 1%nat else 0%nat) /\
      (forall v, dict_get v (active_streams s') =
                 if set_mem v l then None else dict_get v (active_streams s)) /\
      (forall v, dict_get v (chat_page_tokens s') =
                 if set_mem v l then None
                 else dict_get v (chat_page_tokens s)).
Proof.
  induction l as [|x l IH]; intros s Hnd Hact.
  - exists s, []. cbn. rewrite app_nil_r. auto.
  - inversion Hnd as [|? ? Hx Hnd']; subst.
    destruct (end_stream_run env config x s (Hact x (or_introl eq_refl)))
      as (s1 & ds1 & data & E1 & Hp1 & He1 & Hv1 & Ha1 & Hk1).
    destruct (IH s1 Hnd') as (s' & ds2 & E2 & Hp2 & Hc2 & Ha2 & Hk2).
    { intros y Hy. rewrite Ha1, dict_get_del_neq.
      - apply Hact. now right.
      - intros ->. contradiction. }
    exists s', (ds1 ++ ds2). cbn [for_each]. unfold bind. rewrite E1.
    split; [exact E2|]. split; [now rewrite Hp2, Hp1, app_assoc|].
    split; [|split]; intros v; rewrite set_mem_cons;
      destruct (String.eqb v x) eqn:Evx; cbn [orb].
    + apply String.eqb_eq in Evx as ->.
      rewrite events_of_app, ended_count_app, He1, Hc2.
      rewrite (ended_count_one x x data Hv1), String.eqb_refl.
      now rewrite (set_mem_false x l Hx).
    + rewrite events_of_app, ended_count_app, He1, Hc2.
      rewrite (ended_count_one v x data Hv1), Evx. reflexivity.
    + apply String.eqb_eq in Evx as ->. rewrite Ha2.
      rewrite (set_mem_false x l Hx), Ha1. apply dict_get_del_eq.
    + rewrite Ha2, Ha1. apply String.eqb_neq in Evx.
      now rewrite dict_get_del_neq.
    + apply String.eqb_eq in Evx as ->. rewrite Hk2.
      rewrite (set_mem_false x l Hx), Hk1. apply dict_get_del_eq.
    + rewrite Hk2, Hk1. apply String.eqb_neq in Evx.
      now rewrite dict_get_del_neq.
Qed.

(** *** A full check, from the broadcast list on *)



Lemma checks_list_phase x mu : checks x mu -> list_phase mu.
Proof.
  destruct mu; cbn; try tauto. intros [H _] E. rewrite E in H.
  cbn in H. repeat (destruct H as [H|H]; [discriminate|]). exact H.
Qed.

Lemma ended_count_none v ds :
  Forall (fun dl => post_type dl <> "youtube.live.ended") ds ->
  ended_count v (events_of ds) = 0%nat.
Proof.
  induction 1 as [|dl ds H _ IH]; auto.
  rewrite events_of_cons. destruct (Nat.eqb (attempt dl) 0); auto.
  change ((post_type dl, post_event dl) :: events_of ds)
    with ([(post_type dl, post_event dl)] ++ events_of ds).
  rewrite ended_count_app, IH. unfold ended_count, is_ended_for.
  cbn [filter fst]. apply String.eqb_neq in H. now rewrite H.
Qed.







(** *** A failed list call *)

(** A call that only makes benign changes and returns. *)
Lemma benign_run {A} (m : M A) s :
  returns m -> steps benign m ->
  exists a s1,
    m s = (Returned a, s1) /\
    posted (world s1) = posted (world s) /\
    active_streams s1 = active_streams s /\
    chat_page_tokens s1 = chat_page_tokens s.
Proof.
  intros Hr Hs. destruct (Hr s) as [a Ha]. specialize (Hs s).
  destruct (m s) as [r s1]. cbn [fst snd] in *. subst r.
  exists a, s1. split; auto. split; [|split].
  - destruct (touches_posts benign (fun _ => False) s s1 (fun dl H => H) Hs)
      as (ds & E & F).
    destruct ds as [|dl ds]; [now rewrite app_nil_r in E|].
    inversion F; contradiction.
  - apply (touches_active_same benign s s1); cbn; auto.
  - apply (touches_tokens_same benign s s1); cbn; auto.
Qed.

Lemma get_live_broadcasts_transport_failure env config s :
  quota_exceeded (api_client s) = false ->
  search_get env (List.length (fetched (world s))) = RequestException ->
  fst (get_live_broadcasts env config s) = Returned [].
Proof.
  intros Hq Hs. unfold get_live_broadcasts, bind at 1. cbn [get_state].
  rewrite Hq. unfold bind at 1.
  destruct (check_rate_limit_effect env s) as (s1 & E & _ & Hf & _).
  rewrite E. unfold bind, session_get. cbn [fst snd]. rewrite Hf, Hs.
  reflexivity.
Qed.

Lemma emitted_same_posts s s1 s' :
  posted (world s1) = posted (world s) -> emitted s s' = emitted s1 s'.
Proof. intros H. unfold emitted, posts_since. now rewrite H. Qed.

(** With a failed list call, the cycle is the reconciliation against the
    empty list. *)
Lemma check_live_streams_failed_list env config s :
  skips_full_check s (clock env (ticks (world s))) = false ->
  quota_exceeded (api_client s) = false ->
  search_get env (List.length (fetched (world s))) = RequestException ->
  exists s2,
    _check_live_streams env config s = reconcile env config [] s2 /\
    posted (world s2) = posted (world s) /\
    active_streams s2 = active_streams s /\
    chat_page_tokens s2 = chat_page_tokens s.
Proof.
  intros Hfull Hq Hfail.
  unfold _check_live_streams, bind at 1, now. cbn [fst snd].
  fold (mutate Tick s). unfold bind at 1. cbn [get_state].
  replace (skips_full_check (mutate Tick s) (clock env (ticks (world s))))
    with (skips_full_check s (clock env (ticks (world s)))) by reflexivity.
  rewrite Hfull. unfold full_check, bind at 1, modify at 1.
  set (s1 := set_last_broadcast_check _ _).
  assert (Hb : fst (get_live_broadcasts env config s1) = Returned [])
    by (apply get_live_broadcasts_transport_failure; assumption).
  destruct (benign_run (get_live_broadcasts env config) s1
              (returns_get_live_broadcasts env config)
              (steps_get_live_broadcasts env config benign (fun mu H => H)))
    as (bs & s2 & E & Hp & Ha & Hk).
  rewrite E in Hb. cbn [fst] in Hb. injection Hb as ->.
  unfold bind at 1. rewrite E. exists s2. auto.
Qed.

Lemma reconcile_nothing_listed env config s :
  NoDup (dict_keys (active_streams s)) ->
  exists s',
    reconcile env config [] s = (Returned tt, s') /\
    active_streams s' = [] /\
    forall video_id,
      In video_id (dict_keys (active_streams s)) ->
      ended_count video_id (emitted s s') = 1%nat /\
      dict_get video_id (chat_page_tokens s') = None.
Proof.
  intros Hnd. unfold reconcile, bind at 1, modify at 1.
  set (s3 := set_stats_api_calls _ s).
  cbn [for_each_with]. unfold bind at 1. cbn [ret]. unfold bind at 1.
  cbn [get_state].
  set (l := ended_streams (active_streams s3) []).
  destruct (end_streams_run env config l s3)
    as (s' & ds & E' & Hp' & Hc & Ha' & Hk').
  { apply NoDup_filter. exact Hnd. }
  { intros x Hx. apply ended_streams_spec in Hx as [Hx _].
    now apply dict_get_in_keys. }
  exists s'. split; auto.
  assert (Hl : forall v, set_mem v l = true \/
                         dict_get v (active_streams s3) = None).
  { intros v. destruct (dict_get v (active_streams s3)) eqn:Eg; auto.
    left. apply set_mem_In, ended_streams_spec. split; auto.
    apply dict_get_in_keys. congruence. }
  split.
  - apply dict_empty. intros v. rewrite Ha'.
    destruct (Hl v) as [H|H]; [now rewrite H|].
    now destruct (set_mem v l).
  - intros v Hv.
    assert (Hm : set_mem v l = true).
    { apply set_mem_In, ended_streams_spec. split; auto. }
    split.
    + unfold emitted. rewrite (posts_since_app s s' ds Hp').
      now rewrite Hc, Hm.
    + now rewrite Hk', Hm.
Qed.

(** C1, as the code has it.  When the list call of a full check fails at the
    transport level, [get_live_broadcasts] returns the empty list and the
    cycle reconciles against it as against a response that lists nothing:
    every active stream gets one ["ended"] event and is evicted with its chat
    cursor, and the active set is empty afterwards. *)
Theorem failed_list_call_ends_every_stream
    (env : Env) (config : YouTubeConfig) (s : State) :
  NoDup (dict_keys (active_streams s)) ->
  skips_full_check s (clock env (ticks (world s))) = false ->
  quota_exceeded (api_client s) = false ->
  search_get env (List.length (fetched (world s))) = RequestException ->
  let r := _check_live_streams env config s in
  fst r = Returned tt /\
  active_streams (snd r) = [] /\
  forall video_id,
    In video_id (dict_keys (active_streams s)) ->
    ended_count video_id (emitted s (snd r)) = 1%nat /\
    dict_get video_id (chat_page_tokens (snd r)) = None.
Proof.
  intros Hnd Hfull Hq Hfail r. subst r.
  destruct (check_live_streams_failed_list env config s Hfull Hq Hfail)
    as (s2 & E & Hp & Ha & Hk).
  rewrite E. destruct (reconcile_nothing_listed env config s2)
    as (s' & E' & Hempty & H).
  { now rewrite Ha. }
  rewrite E'. cbn [fst snd]. split; auto. split; auto.
  intros v Hv. rewrite (emitted_same_posts s s2 s') by (now rewrite Hp).
  apply H. now rewrite Ha.
Qed.

(** *** Viewer-count updates *)

Lemma exceeds_ten_percent_spec viewer_diff old_viewers :
  exceeds_ten_percent viewer_diff old_viewers = true <->
  (1 # 10 < inject_Z viewer_diff / inject_Z old_viewers)%Q.
Proof.
  unfold exceeds_ten_percent. rewrite negb_true_iff.
  rewrite <- not_true_iff_false, Qle_bool_iff. split.
  - apply Qnot_le_lt.
  - apply Qlt_not_le.
Qed.

Lemma refresh_fires_spec old_viewers new_viewers :
  refresh_fires old_viewers new_viewers = true <->
  old_viewers > 0 /\ changes_by_more_than_a_tenth old_viewers new_viewers.
Proof.
  unfold refresh_fires, changes_by_more_than_a_tenth.
  rewrite andb_true_iff, exceeds_ten_percent_spec, Z.gtb_gt. tauto.
Qed.

Lemma full_check_fires_spec old_viewers new_viewers :
  full_check_fires old_viewers new_viewers = true <->
  old_viewers <> 0 /\ new_viewers <> 0 /\
  (Z.abs (new_viewers - old_viewers) > 100 \/
   (old_viewers > 0 /\
    changes_by_more_than_a_tenth old_viewers new_viewers)).
Proof.
  unfold full_check_fires, changes_by_more_than_a_tenth.
  rewrite !andb_true_iff, orb_true_iff, !negb_true_iff, !Z.eqb_neq, Z.gtb_gt.
  destruct (Z.gtb_spec old_viewers 0) as [H|H].
  - rewrite exceeds_ten_percent_spec. intuition lia.
  - intuition (try lia; try discriminate).
Qed.

Lemma emitted_nil s s' :
  posted (world s') = posted (world s) -> emitted s s' = [].
Proof.
  intros H. unfold emitted.
  rewrite (posts_since_app s s' []); auto. now rewrite app_nil_r.
Qed.

Lemma in_events_of ty d ds :
  In (ty, d) (events_of ds) ->
  exists dl, In dl ds /\ post_type dl = ty /\ post_event dl = d.
Proof.
  unfold events_of. rewrite in_map_iff. intros (dl & E & H).
  apply filter_In in H as [H _]. injection E as <- <-. eauto.
Qed.

Lemma get_video_details_run env v s :
  exists o s1,
    get_video_details env v s = (Returned o, s1) /\
    posted (world s1) = posted (world s) /\
    active_streams s1 = active_streams s /\
    chat_page_tokens s1 = chat_page_tokens s.
Proof.
  apply benign_run.
  - apply returns_get_video_details.
  - apply steps_get_video_details. auto.
Qed.

Lemma no_update_posts (P : Mutation -> Prop) s s' d :
  (forall dl, P (Post dl) -> post_type dl <> "youtube.live.viewers_updated") ->
  touches P s s' ->
  ~ In ("youtube.live.viewers_updated", d) (emitted s s').
Proof.
  intros HP Ht Hin. apply in_events_of in Hin as (dl & Hdl & Hty & _).
  pose proof (touches_posts_since P _ s s' HP Ht) as HF.
  rewrite Forall_forall in HF. now apply (HF dl Hdl).
Qed.

Lemma chats_no_update v dl :
  chats_about v (Post dl) -> post_type dl <> "youtube.live.viewers_updated".
Proof.
  intros [H _] E. rewrite E in H. cbn in H.
  repeat (destruct H as [H|H]; [discriminate|]). exact H.
Qed.

(** The lightweight refresh of one stream emits ["viewers_updated"] only for
    a stored count above zero that changed by more than a tenth. *)
Lemma refresh_stream_update env config v s d :
  let s' := snd (refresh_stream env config v s) in
  In ("youtube.live.viewers_updated", d) (emitted s s') ->
  stream_viewers s v > 0 /\
  changes_by_more_than_a_tenth (stream_viewers s v) (stream_viewers s' v).
Proof.
  set (r := refresh_stream env config v s).
  assert (Er : r = refresh_stream env config v s) by reflexivity.
  clearbody r. cbn zeta.
  unfold refresh_stream, bind at 1 in Er.
  destruct (get_video_details_run env v s) as (o & s1 & E & Hp & Ha & _).
  rewrite E in Er. unfold bind at 1, modify at 1 in Er.
  set (s2 := set_stats_api_calls _ s1) in Er.
  assert (Hp2 : posted (world s2) = posted (world s)) by exact Hp.
  assert (Ha2 : active_streams s2 = active_streams s) by exact Ha.
  destruct o as [details|];
    [|subst r; cbn [snd ret raise when];
      rewrite emitted_nil by exact Hp2; contradiction].
  destruct (liveStreamingDetails details) as [new_lsd|] eqn:Enew;
    [|subst r; cbn [snd ret raise when];
      rewrite emitted_nil by exact Hp2; contradiction].
  unfold bind at 1 in Er. cbn [get_state] in Er.
  unfold subscript, bind at 1 in Er. rewrite Ha2 in Er.
  destruct (dict_get v (active_streams s)) as [old_details|] eqn:Eold;
    [|subst r; cbn [snd ret raise when];
      rewrite emitted_nil by exact Hp2; contradiction].
  cbn [ret] in Er. unfold live_details, bind at 1 in Er.
  destruct (liveStreamingDetails old_details) as [old_lsd|] eqn:Eoldl;
    [|subst r; cbn [snd ret raise when];
      rewrite emitted_nil by exact Hp2; contradiction].
  cbn [ret] in Er. unfold bind at 1, modify at 1 in Er.
  set (s3 := set_active_streams _ s2) in Er.
  assert (Hold : stream_viewers s v =
                 match concurrentViewers old_lsd with
                 | Some n => n | None => 0 end).
  { unfold stream_viewers, viewers_or_zero. now rewrite Eold, Eoldl. }
  destruct (refresh_fires _ _) eqn:Efire;
    [|subst r; cbn [snd ret raise when];
      rewrite emitted_nil by exact Hp2; contradiction].
  cbn [when] in Er. intros _.
  match type of Er with
  | r = forward_and_count env config ?ty ?d ?s3 =>
      destruct (forward_and_count_run env config ty d s3)
        as (s' & E' & _ & Ha' & _)
  end.
  rewrite E' in Er. subst r. cbn [snd].
  assert (Hnew : stream_viewers s' v =
                 match concurrentViewers new_lsd with
                 | Some n => n | None => 0 end).
  { unfold stream_viewers. rewrite Ha'. subst s3. cbn [active_streams
      set_active_streams]. rewrite dict_get_set_eq.
    unfold viewers_or_zero. now rewrite Enew. }
  rewrite Hold, Hnew. now apply refresh_fires_spec.
Qed.


Lemma steps_chat_quiet env config v details :
  steps quiet (monitor_chat_if_available env config v details).
Proof.
  eapply steps_weaken; [|apply steps_monitor_chat_if_available].
  intros mu H. destruct mu; cbn; auto. now apply chats_no_update with v.
Qed.

Lemma steps_started_quiet env config d :
  steps quiet (forward_and_count env config "youtube.live.started" d).
Proof.
  eapply steps_weaken; [|apply steps_forward_and_count].
  intros mu H. destruct mu; cbn; auto.
  apply forwards_post in H as [-> _]. discriminate.
Qed.

(** The full check of one listed stream emits ["viewers_updated"] only when
    both counts are non-zero and the change is above 100 viewers or above a
    tenth of the stored count. *)
Lemma check_broadcast_update env config b ids s d :
  let v := videoId b in
  let s' := snd (check_broadcast env config b ids s) in
  In ("youtube.live.viewers_updated", d) (emitted s s') ->
  stream_viewers s v <> 0 /\ stream_viewers s' v <> 0 /\
  (Z.abs (stream_viewers s' v - stream_viewers s v) > 100 \/
   (stream_viewers s v > 0 /\
    changes_by_more_than_a_tenth (stream_viewers s v) (stream_viewers s' v))).
Proof.
  set (r := check_broadcast env config b ids s).
  assert (Er : r = check_broadcast env config b ids s) by reflexivity.
  clearbody r. cbn zeta. set (v := videoId b) in *.
  unfold check_broadcast, bind at 1 in Er. fold v in Er.
  destruct (get_video_details_run env v s) as (o & s1 & E & Hp & Ha & _).
  rewrite E in Er. unfold bind at 1, modify at 1 in Er.
  set (s2 := set_stats_api_calls _ s1) in Er.
  assert (Hp2 : posted (world s2) = posted (world s)) by exact Hp.
  assert (Ha2 : active_streams s2 = active_streams s) by exact Ha.
  destruct o as [details|];
    [|subst r; cbn [snd ret]; rewrite emitted_nil by exact Hp2; contradiction].
  unfold bind at 1 in Er. cbn [get_state] in Er. rewrite Ha2 in Er.
  destruct (dict_get v (active_streams s)) as [old_details|] eqn:Eold.
  - (* a stream already active *)
    assert (Hold : stream_viewers s v = viewers_or_zero old_details)
      by (unfold stream_viewers; now rewrite Eold).
    assert (Hnew : stream_viewers (snd r) v = viewers_or_zero details).
    { rewrite Er. unfold bind at 1.
      match goal with
      | |- context [when ?c ?m s2] => destruct (when c m s2) as [[[]|e] s3] eqn:E3
      end; [|cbn [snd]].
      - unfold bind at 1, modify at 1.
        set (s4 := set_active_streams _ s3). unfold bind.
        pose proof (steps_monitor_chat_if_available env config v details s4)
          as Ht.
        destruct (monitor_chat_if_available env config v details s4)
          as [[[]|e] s5]; cbn [snd ret] in *;
          unfold stream_viewers;
          rewrite (touches_active_same (chats_about v) s4 s5) by (cbn; auto);
          subst s4; cbn [active_streams set_active_streams];
          now rewrite dict_get_set_eq.
      - exfalso. unfold when in E3. destruct (full_check_fires _ _).
        + match type of E3 with
          | forward_and_count env config ?ty ?d ?s = _ =>
              destruct (forward_and_count_run env config ty d s)
                as (sx & Ex & _)
          end. rewrite Ex in E3. discriminate.
        + discriminate. }
    destruct (full_check_fires (viewers_or_zero old_details)
                (viewers_or_zero details)) eqn:Efire.
    + intros _. rewrite Hold, Hnew. now apply full_check_fires_spec.
    + intros Hin. exfalso. revert Hin. rewrite Er. cbn [when].
      rewrite (emitted_same_posts s s2) by exact Hp2.
      apply (no_update_posts quiet); [auto|].
      apply (steps_bind quiet); [apply steps_ret|intros _].
      apply steps_bind; [step; exact I|intros _].
      apply steps_bind; [apply steps_chat_quiet|intros _]. apply steps_ret.
  - (* a new stream *)
    intros Hin. exfalso. revert Hin. rewrite Er.
    rewrite (emitted_same_posts s s2) by exact Hp2.
    apply (no_update_posts quiet); [auto|].
    apply steps_bind; [step; exact I|intros _].
    apply steps_bind; [unfold live_details; repeat step|intros lsd].
    apply steps_bind; [apply steps_started_quiet|intros _].
    apply steps_bind; [apply steps_chat_quiet|intros _]. apply steps_ret.
Qed.

(** C3, as the code has it.  On the lightweight refresh a ["viewers_updated"]
    event fires only when the stored count is above zero and the count
    changed by more than a tenth of it.  On the full check it fires only when
    both counts are non-zero and the change is either above 100 viewers or,
    with a stored count above zero, above a tenth of it. *)
Theorem viewers_updated_fires_above_thresholds
    (env : Env) (config : YouTubeConfig) (s : State) :
  (forall video_id event_data,
     let s' := snd (refresh_stream env config video_id s) in
     In ("youtube.live.viewers_updated", event_data) (emitted s s') ->
     stream_viewers s video_id > 0 /\
     changes_by_more_than_a_tenth (stream_viewers s video_id)
                                  (stream_viewers s' video_id)) /\
  (forall broadcast current_stream_ids event_data,
     let v := videoId broadcast in
     let s' := snd (check_broadcast env config broadcast current_stream_ids s) in
     In ("youtube.live.viewers_updated", event_data) (emitted s s') ->
     stream_viewers s v <> 0 /\ stream_viewers s' v <> 0 /\
     (Z.abs (stream_viewers s' v - stream_viewers s v) > 100 \/
      (stream_viewers s v > 0 /\
       changes_by_more_than_a_tenth (stream_viewers s v)
                                    (stream_viewers s' v)))).
Proof.
  split.
  - intros v d. apply refresh_stream_update.
  - intros b ids d. apply check_broadcast_update.
Qed.

(** *** Missing details on the lightweight refresh *)

Lemma steps_lightweight_refresh env config :
  steps list_phase (lightweight_refresh env config).
Proof.
  unfold lightweight_refresh. apply steps_bind; [step|intros s].
  apply steps_for_each. intros v _.
  eapply steps_weaken; [|apply steps_refresh_stream].
  apply checks_list_phase.
Qed.

(** C7, as the code has it.  On the lightweight refresh, a [None] detail
    response, or one without live details, is only logged: the iteration for
    that stream returns without any POST and leaves the active set and the
    chat cursors as they were.  The lightweight refresh as a whole never
    evicts a stream and never emits an ["ended"] event. *)
Theorem missing_details_on_refresh_change_nothing
    (env : Env) (config : YouTubeConfig) (s : State) :
  (forall video_id,
     (fst (get_video_details env video_id s) = Returned None \/
      exists details,
        fst (get_video_details env video_id s) = Returned (Some details) /\
        liveStreamingDetails details = None) ->
     let r := refresh_stream env config video_id s in
     fst r = Returned tt /\
     posts_since s (snd r) = [] /\
     active_streams (snd r) = active_streams s /\
     chat_page_tokens (snd r) = chat_page_tokens s) /\
  (let s' := snd (lightweight_refresh env config s) in
   forall video_id,
     (In video_id (dict_keys (active_streams s)) ->
      In video_id (dict_keys (active_streams s'))) /\
     ended_count video_id (emitted s s') = 0%nat).
Proof.
  split.
  - intros v Hmiss r. subst r. unfold refresh_stream, bind.
    destruct (get_video_details_run env v s) as (o & s1 & E & Hp & Ha & Hk).
    rewrite E in *. cbn [fst] in Hmiss. unfold modify.
    assert (Hnone : match o with
                    | Some d => liveStreamingDetails d = None
                    | None => True
                    end).
    { destruct Hmiss as [Hm|(d & Hm & Hd)]; injection Hm as ->; auto. }
    assert (Hps : forall s2, posted (world s2) = posted (world s) ->
                             posts_since s s2 = []).
    { intros s2 H. apply (posts_since_app s s2 []).
      now rewrite app_nil_r. }
    destruct o as [d|]; [rewrite Hnone|]; cbn; auto.
  - intros s' v. pose proof (steps_lightweight_refresh env config s) as Ht.
    fold s' in Ht. split.
    + intros Hv. apply (touches_active_grows list_phase s s'); auto.
    + unfold emitted.
      destruct (touches_posts list_phase
                  (fun dl => post_type dl <> "youtube.live.ended") s s'
                  (fun dl H => H) Ht) as (ds & Hp & HF).
      rewrite (posts_since_app s s' ds Hp). now apply ended_count_none.
Qed.

(** *** The callback endpoint *)

(** C8 on src/server/server.py.  A GET that carries [hub.challenge], as the
    hub sends it, is not recognised by the handler, which looks for
    [hub_challenge]: it answers 404 with the path, not 200 with the
    challenge. *)
Theorem server_do_GET_misses_hub_challenge
    (has_trigger : bool) (req : GetCallback) (challenge : string)
    (more : list string) :
  dict_get "hub.challenge" (params req) = Some (challenge, more) ->
  dict_get "hub_challenge" (params req) = None ->
  path req <> "/data/events" ->
  Server.do_GET has_trigger req =
    {| status := 404; content_type := Some "text/plain";
       content := Text ("Not Found: " ++ path req) |}.
Proof.
  intros _ Hmiss Hpath. unfold Server.do_GET.
  apply String.eqb_neq in Hpath. now rewrite Hpath, Hmiss.
Qed.

(** The two handlers under tubular/contrib do echo the challenge. *)
Lemma contrib_do_GET_echoes_challenge
    (has_trigger : bool) (req : GetCallback) (challenge : string)
    (more : list string) :
  dict_get "hub.challenge" (params req) = Some (challenge, more) ->
  Contrib.do_GET req =
    {| status := 200; content_type := Some "text/plain";
       content := Text challenge |} /\
  (path req <> "/data/events" ->
   ContribServer.do_GET has_trigger req =
     {| status := 200; content_type := Some "text/plain";
        content := Text challenge |}).
Proof.
  intros H. unfold Contrib.do_GET, ContribServer.do_GET. rewrite H.
  split; auto. intros Hpath. apply String.eqb_neq in Hpath.
  now rewrite Hpath.
Qed.

(* ===================================================================== *)
(** ** The theorems at concrete inputs *)

Lemma NoDup_one (k : string) : NoDup [k].
Proof. constructor; [intros []|constructor]. Defined.

(** C1: with V1 active and the list call failing at the transport level, the
    full check evicts V1 and emits its ["ended"] event. *)
Lemma failed_list_call_counterexample :
  skips_full_check (one_stream 0) (clock env_list_call_fails 0) = false /\
  search_get env_list_call_fails 0 = RequestException /\
  In "V1" (dict_keys (active_streams (one_stream 0))) /\
  ~ In "V1" (dict_keys (active_streams
       (snd (_check_live_streams env_list_call_fails example_config
               (one_stream 0))))) /\
  ended_count "V1"
    (emitted (one_stream 0)
       (snd (_check_live_streams env_list_call_fails example_config
               (one_stream 0)))) = 1%nat.
Proof.
  split; [reflexivity|]. split; [reflexivity|]. split; [now left|].
  split; [|vm_compute; reflexivity].
  vm_compute. intros [].
Qed.

Lemma failed_list_call_ends_every_stream_witness :
  NoDup (dict_keys (active_streams (one_stream 0))) /\
  fst (_check_live_streams env_list_call_fails example_config (one_stream 0))
    = Returned tt /\
  active_streams
    (snd (_check_live_streams env_list_call_fails example_config
            (one_stream 0))) = [].
Proof.
  assert (Hnd : NoDup (dict_keys (active_streams (one_stream 0))))
    by apply NoDup_one.
  split; [exact Hnd|].
  destruct (failed_list_call_ends_every_stream env_list_call_fails
              example_config (one_stream 0) Hnd eq_refl eq_refl eq_refl)
    as (H1 & H2 & _).
  split; assumption.
Defined.



(** C3: on the full check, a change from 2000 to 2150 viewers, 7.5% of the
    stored count, fires a ["viewers_updated"] event. *)
Lemma small_relative_change_counterexample :
  skips_full_check (one_stream 0) (clock env_small_change 0) = false /\
  stream_viewers (one_stream 0) "V1" = 2000 /\
  ~ changes_by_more_than_a_tenth 2000 2150 /\
  In ("youtube.live.viewers_updated",
      [("video_id", JStr "V1"); ("concurrent_viewers", JInt 2150);
       ("previous_viewers", JInt 2000)])
     (emitted (one_stream 0)
        (snd (_check_live_streams env_small_change example_config
                (one_stream 0)))).
Proof.
  split; [reflexivity|]. split; [reflexivity|]. split.
  - intros H. vm_compute in H. discriminate.
  - vm_compute. now left.
Qed.

Lemma viewers_updated_fires_above_thresholds_witness :
  (stream_viewers (one_stream 0) "V1" > 0 /\
   changes_by_more_than_a_tenth (stream_viewers (one_stream 0) "V1")
     (stream_viewers
        (snd (refresh_stream env_large_change example_config "V1"
                (one_stream 0))) "V1")) /\
  (Z.abs (stream_viewers
            (snd (check_broadcast env_small_change example_config
                    {| videoId := "V1" |} [] (one_stream 0))) "V1"
          - stream_viewers (one_stream 0) "V1") > 100 \/
   (stream_viewers (one_stream 0) "V1" > 0 /\
    changes_by_more_than_a_tenth (stream_viewers (one_stream 0) "V1")
      (stream_viewers
         (snd (check_broadcast env_small_change example_config
                 {| videoId := "V1" |} [] (one_stream 0))) "V1"))).
Proof.
  destruct (viewers_updated_fires_above_thresholds env_large_change
              example_config (one_stream 0)) as [Hlight _].
  destruct (viewers_updated_fires_above_thresholds env_small_change
              example_config (one_stream 0)) as [_ Hfull].
  split.
  - apply (Hlight "V1"
             [("video_id", JStr "V1"); ("concurrent_viewers", JInt 2300);
              ("title", JStr "Stream"); ("channel_id", JStr "UC1")]).
    vm_compute. now left.
  - apply (Hfull {| videoId := "V1" |} []
             [("video_id", JStr "V1"); ("concurrent_viewers", JInt 2150);
              ("previous_viewers", JInt 2000)]).
    vm_compute. now left.
Defined.

Lemma quota_refusal_and_daily_reset_witness :
  get_live_broadcasts env_v2_only example_config exceeded_yesterday =
    (Returned [], exceeded_yesterday) /\
  quota_used_today
    (api_client (snd (_record_api_call env_v2_only "search"
                        exceeded_yesterday))) = 100 /\
  quota_used_today
    (api_client (snd (get_video_details env_v2_only "V2"
                        not_exceeded_yesterday))) = 1.
Proof.
  destruct (quota_refusal_and_daily_reset env_v2_only example_config
              exceeded_yesterday) as (Hrefuse & Hreset & _).
  destruct (quota_refusal_and_daily_reset env_v2_only example_config
              not_exceeded_yesterday) as (_ & _ & Hcharge).
  split; [apply Hrefuse; reflexivity|]. split.
  - apply (Hreset "search"). vm_compute. discriminate.
  - refine (proj1 (proj2 (Hcharge eq_refl _)) "V2" _ eq_refl).
    vm_compute. discriminate.
Defined.

Lemma forward_event_enqueues_once_after_four_failures_witness :
  (fst (forward_event env_posts_fail example_config "youtube.live.started"
          [("video_id", JStr "V1")] no_streams) = Returned false /\
   failed_events
     (snd (forward_event env_posts_fail example_config "youtube.live.started"
             [("video_id", JStr "V1")] no_streams)) =
     [("youtube.live.started", [("video_id", JStr "V1")],
       clock env_posts_fail 4)]) /\
  (fst (forward_event env_v2_only example_config "youtube.live.started"
          [("video_id", JStr "V1")] no_streams) = Returned true /\
   failed_events
     (snd (forward_event env_v2_only example_config "youtube.live.started"
             [("video_id", JStr "V1")] no_streams)) = []).
Proof.
  destruct (forward_event_enqueues_once_after_four_failures env_posts_fail
              example_config "youtube.live.started" [("video_id", JStr "V1")]
              no_streams) as [Hfail _].
  destruct (forward_event_enqueues_once_after_four_failures env_v2_only
              example_config "youtube.live.started" [("video_id", JStr "V1")]
              no_streams) as [_ Hok].
  split.
  - destruct Hfail as (H1 & _ & H3); [intros j _; reflexivity|].
    split; [exact H1|exact H3].
  - destruct (Hok 0%nat) as (H1 & _ & H3);
      [lia | intros i Hi; lia | reflexivity |].
    split; [exact H1|exact H3].
Defined.


(** C7: on the lightweight refresh, with the details of the active stream V1
    unavailable, no event is emitted and V1 stays in the active set. *)
Lemma missing_details_on_refresh_counterexample :
  skips_full_check one_stream_checked_a_minute_ago
    (clock env_list_call_fails 0) = true /\
  fst (get_video_details env_list_call_fails "V1"
         (mutate Tick one_stream_checked_a_minute_ago)) = Returned None /\
  emitted one_stream_checked_a_minute_ago
    (snd (_check_live_streams env_list_call_fails example_config
            one_stream_checked_a_minute_ago)) = [] /\
  In "V1"
    (dict_keys (active_streams
       (snd (_check_live_streams env_list_call_fails example_config
               one_stream_checked_a_minute_ago)))).
Proof.
  split; [reflexivity|]. split; [reflexivity|].
  split; [vm_compute; reflexivity|]. vm_compute. now left.
Qed.

Lemma missing_details_on_refresh_change_nothing_witness :
  (posts_since one_stream_checked_a_minute_ago
     (snd (refresh_stream env_list_call_fails example_config "V1"
             one_stream_checked_a_minute_ago)) = [] /\
   active_streams
     (snd (refresh_stream env_list_call_fails example_config "V1"
             one_stream_checked_a_minute_ago)) =
   active_streams one_stream_checked_a_minute_ago) /\
  In "V1"
    (dict_keys (active_streams
       (snd (lightweight_refresh env_list_call_fails example_config
               one_stream_checked_a_minute_ago)))).
Proof.
  destruct (missing_details_on_refresh_change_nothing env_list_call_fails
              example_config one_stream_checked_a_minute_ago)
    as [Hone Hall].
  split.
  - destruct (Hone "V1") as (_ & H2 & H3 & _); [left; reflexivity|].
    split; assumption.
  - apply (Hall "V1"). now left.
Defined.

Lemma server_do_GET_misses_hub_challenge_witness :
  Server.do_GET true hub_verification =
    {| status := 404; content_type := Some "text/plain";
       content :=
         Text "Not Found: /youtube/callback?hub.mode=subscribe&hub.challenge=abc123" |}.
Proof.
  apply (server_do_GET_misses_hub_challenge true hub_verification
           "abc123" []).
  - reflexivity.
  - reflexivity.
  - discriminate.
Defined.

Lemma signature_header_signs_post_body_witness :
  webhook_secret example_config <> "" /\
  Forall (fun dl =>
            dict_get "X-Hub-Signature" (headers (request dl)) =
              Some ("sha256=" ++
                    hmac_sha256_hexdigest env_v2_only
                      (webhook_secret example_config)
                      (post_body env_v2_only (request dl)))%string)
    (posts_since no_streams
       (snd (forward_event env_v2_only example_config "youtube.live.started"
               [("video_id", JStr "V1")] no_streams))).
Proof.
  assert (Hsecret : webhook_secret example_config <> "") by discriminate.
  split; [exact Hsecret|].
  destruct (signature_header_signs_post_body env_v2_only example_config
              "youtube.live.started" [("video_id", JStr "V1")] no_streams
              Hsecret) as [_ H].
  eapply Forall_impl; [|exact H]. intros dl [_ Hsig]. exact Hsig.
Defined.

Lemma env_no_details_unavailable : details_unavailable env_no_details "V1".
Proof. intros n. exact I. Defined.

Lemma missing_details_leave_stream_untouched_witness :
  (fst (check_broadcast env_no_details example_config {| videoId := "V1" |} []
          (one_stream 0)) = Returned ["V1"] /\
   active_streams
     (snd (check_broadcast env_no_details example_config
             {| videoId := "V1" |} [] (one_stream 0))) =
   active_streams (one_stream 0)) /\
  ~ In "V1" (ended_streams (active_streams (one_stream 0)) ["V1"; "V2"]) /\
  dict_get "V1"
    (active_streams
       (snd (reconcile env_no_details example_config
               [{| videoId := "V1" |}; {| videoId := "V2" |}]
               (one_stream 0)))) =
    dict_get "V1" (active_streams (one_stream 0)) /\
  dict_get "V1"
    (chat_page_tokens
       (snd (reconcile env_no_details example_config
               [{| videoId := "V1" |}; {| videoId := "V2" |}]
               (one_stream 0)))) =
    dict_get "V1" (chat_page_tokens (one_stream 0)).
Proof.
  destruct (missing_details_leave_stream_untouched env_no_details
              example_config "V1" (one_stream 0)) as (Hone & Hset & Hall).
  split; [|split].
  - destruct (Hone {| videoId := "V1" |} [] eq_refl eq_refl)
      as (H1 & _ & H3 & _).
    split; assumption.
  - apply Hset. now left.
  - apply (Hall [{| videoId := "V1" |}; {| videoId := "V2" |}]
             env_no_details_unavailable).
    now left.
Defined.
